(** * MovieLens data cleaning: a shallow embedding of [data_cleaning.py]

    The script filters four CSV tables (ratings, links, tags, movies) down
    to a bounded subset.  This development embeds its functions in Rocq and
    proves the properties its specification states about them.

    Modelling conventions.
    - A Python [str] is a Rocq [string] holding the UTF-8 bytes of the text
      (the script opens every file with [encoding="utf-8"]).  A character
      outside 7-bit ASCII is then exactly a run of bytes [>= 128], and an
      ASCII character is exactly one byte [< 128].
    - A Python [int] is a [Z]; the caps of the configuration are counts and
      are natural numbers.
    - A [set] of integers is a [gset Z], a [defaultdict(int)] keyed by
      integers is a [gmap Z nat] read with default [0], a row [dict] is a
      [gmap string cell].
    - A CSV file is the list of records that [csv.reader] yields from it,
      each record a list of cell texts; the file system maps a path to such
      a list.  Quoting and line splitting belong to the [csv] module and are
      not modelled.
    - Effects (the file system, standard output, [sys.exit], uncaught
      exceptions) are threaded through a state-and-failure monad [M]. *)

From Stdlib Require Import ZArith Decimal DecimalZ Ascii String Permutation.
From Stdlib.Strings Require Import Byte.
From stdpp Require Import base gmap strings list sorting.

Local Open Scope string_scope.
Local Open Scope Z_scope.

(** ** Python's [int(str)] and [str(int)] *)

Module PyInt.

(** The ASCII characters [str.isspace] accepts: TAB..CR, FS..US, SPACE. *)
Definition is_space (c : ascii) : bool :=
  let n := N_of_ascii c in
  (((9 <=? n) && (n <=? 13)) || ((28 <=? n) && (n <=? 32)))%N.

Fixpoint lstrip (l : list ascii) : list ascii :=
  match l with
  | c :: l' => if is_space c then lstrip l' else l
  | [] => []
  end.

Definition strip (l : list ascii) : list ascii :=
  rev (lstrip (rev (lstrip l))).

(** A decimal digit, as the constructor of [Decimal.uint] it stands for. *)
Definition digit (c : ascii) : option (uint → uint) :=
  match c with
  | "0"%char => Some D0 | "1"%char => Some D1 | "2"%char => Some D2
  | "3"%char => Some D3 | "4"%char => Some D4 | "5"%char => Some D5
  | "6"%char => Some D6 | "7"%char => Some D7 | "8"%char => Some D8
  | "9"%char => Some D9 | _ => None
  end.

(** Digits with single underscores allowed between two digits.
    [prev] tells whether the previous character was a digit. *)
Fixpoint digits (prev : bool) (l : list ascii) : option uint :=
  match l with
  | [] => if prev then Some Nil else None
  | c :: l' =>
      if Ascii.eqb c "_"%char then
        if prev then digits false l' else None
      else
        match digit c with
        | Some d => d <$> digits true l'
        | None => None
        end
  end.

(** [int(s)] for a text [s]: surrounding white space is stripped, one
    sign is allowed, then come the digits.  [None] is Python's
    [ValueError].  Digits and spaces outside ASCII, which Python also
    accepts, are read as invalid literals here, and the bound recent
    interpreters put on the number of digits is not modelled. *)
Definition of_chars (l : list ascii) : option Z :=
  match strip l with
  | "-"%char :: l' => (λ d, Z.of_int (Neg d)) <$> digits false l'
  | "+"%char :: l' => (λ d, Z.of_int (Pos d)) <$> digits false l'
  | l' => (λ d, Z.of_int (Pos d)) <$> digits false l'
  end.

Definition of_string (s : string) : option Z :=
  of_chars (list_ascii_of_string s).

(** [str(z)]: the decimal numeral, with a minus sign when negative. *)
Fixpoint uint_chars (d : uint) : list ascii :=
  match d with
  | Nil => []
  | D0 d => "0"%char :: uint_chars d
  | D1 d => "1"%char :: uint_chars d
  | D2 d => "2"%char :: uint_chars d
  | D3 d => "3"%char :: uint_chars d
  | D4 d => "4"%char :: uint_chars d
  | D5 d => "5"%char :: uint_chars d
  | D6 d => "6"%char :: uint_chars d
  | D7 d => "7"%char :: uint_chars d
  | D8 d => "8"%char :: uint_chars d
  | D9 d => "9"%char :: uint_chars d
  end.

Definition int_chars (d : Decimal.int) : list ascii :=
  match d with
  | Pos d => uint_chars d
  | Neg d => "-"%char :: uint_chars d
  end.

Definition to_string (z : Z) : string :=
  string_of_list_ascii (int_chars (Z.to_int z)).

End PyInt.

Definition py_int : string → option Z := PyInt.of_string.
Definition py_str : Z → string := PyInt.to_string.

(** ** Python values, exceptions and row dictionaries *)

(** A value stored in a row dictionary: [None], a [str] or an [int]. *)
Inductive cell :=
| PNone
| PStr (s : string)
| PInt (z : Z).

Inductive exn :=
| InvalidLiteral (s : string)   (* ValueError: invalid literal for int() *)
| IntOfNone                     (* TypeError: int() argument ... 'NoneType' *)
| KeyError (key : string)
| AttributeError                (* 'int' object has no attribute 'encode' *)
| UnicodeDecodeError
| ExtraFields                   (* ValueError: dict contains fields not in fieldnames *)
| FileNotFoundError (name : string).

(** The outcome of evaluating an expression that may raise. *)
Inductive outcome (A : Type) :=
| Returns (a : A)
| Raises (e : exn).
Arguments Returns {A} a.
Arguments Raises {A} e.

#[global] Instance outcome_ret : MRet outcome := λ A a, Returns a.
#[global] Instance outcome_bind : MBind outcome := λ A B k m,
  match m with
  | Returns a => k a
  | Raises e => Raises e
  end.
#[global] Instance outcome_fmap : FMap outcome := λ A B f m,
  match m with
  | Returns a => Returns (f a)
  | Raises e => Raises e
  end.

(** A row as [csv.DictReader] yields it and as [csv.DictWriter] takes it:
    the entries under the column names, and the list stored under the
    reader's [restkey] ([None]) when a record is longer than the header. *)
Record pydict := {
  items : gmap string cell;
  restkey : option (list string)
}.

(** [d[key]] *)
Definition getitem (d : pydict) (key : string) : outcome cell :=
  match items d !! key with
  | Some v => Returns v
  | None => Raises (KeyError key)
  end.

(** [{k1: v1, ...}] *)
Definition dict_literal (kvs : list (string * cell)) : pydict :=
  {| items := foldl (λ d kv, <[kv.1 := kv.2]> d) ∅ kvs; restkey := None |}.

(** [int(v)] *)
Definition int_of (v : cell) : outcome Z :=
  match v with
  | PNone => Raises IntOfNone
  | PStr s =>
      match py_int s with
      | Some z => Returns z
      | None => Raises (InvalidLiteral s)
      end
  | PInt z => Returns z
  end.

(** ** The [csv] module, on records *)

Abbreviation csv := (list (list string)).

(** [DictReader.fieldnames]: the first record, [None] for an empty file. *)
Definition fieldnames (f : csv) : option (list string) := head f.

(** One step of [DictReader.__next__] on a non-empty record [r]:
    [dict(zip(fieldnames, r))], then the surplus cells under [restkey] or
    [restval] ([None]) under the columns the record did not reach. *)
Definition DictReader_row (fn r : list string) : pydict :=
  let d := foldl (λ d kv, <[kv.1 := PStr kv.2]> d) ∅ (zip fn r) in
  let lf := length fn in
  let lr := length r in
  if (lf <? lr)%nat then
    {| items := d; restkey := Some (drop lf r) |}
  else if (lr <? lf)%nat then
    {| items := foldl (λ d k, <[k := PNone]> d) d (drop lr fn);
       restkey := None |}
  else
    {| items := d; restkey := None |}.

(** The rows a [DictReader] iterates over: the header is consumed, empty
    records are skipped. *)
Definition DictReader (f : csv) : list pydict :=
  match f with
  | [] => []
  | fn :: records => DictReader_row fn <$> filter (λ r, r ≠ []) records
  end.

(** How the writer prints a value: [None] as the empty text, an [int]
    through [str]. *)
Definition render (v : cell) : string :=
  match v with
  | PNone => EmptyString
  | PStr s => s
  | PInt z => py_str z
  end.

(** [DictWriter._dict_to_list] with [extrasaction="raise"] and
    the empty text as [restval], followed by the writer's rendering of each
    value. *)
Definition writerow (fn : list string) (d : pydict) : outcome (list string) :=
  if bool_decide (dom (items d) ⊆ list_to_set fn)
     && bool_decide (restkey d = None)
  then Returns ((λ k, render (default (PStr EmptyString) (items d !! k))) <$> fn)
  else Raises ExtraFields.

(** ** Configuration *)

Record config := {
  MAX_USERS : Z;
  MAX_MOVIES : option nat;
  MAX_TAGS_PER_MOVIE : option nat;
  MAX_RATINGS_PER_USER : option nat;
  ASCII_ONLY : bool
}.

(** The constants as the script sets them. *)
Definition script_config : config :=
  {| MAX_USERS := 50;
     MAX_MOVIES := Some 400%nat;
     MAX_TAGS_PER_MOVIE := Some 30%nat;
     MAX_RATINGS_PER_USER := Some 200%nat;
     ASCII_ONLY := true |}.

(** [cap is not None and n > cap] *)
Definition exceeds (cap : option nat) (n : nat) : bool :=
  match cap with
  | Some c => (c <? n)%nat
  | None => false
  end.

(** ** [sanitize_ascii] *)

Definition is_ascii (b : byte) : bool := (Byte.to_N b <? 128)%N.

(** [s.encode("ascii", "ignore")]: every character outside ASCII is
    dropped; on the UTF-8 bytes of [s] these are the bytes [>= 128]. *)
Definition encode_ascii_ignore (s : string) : list byte :=
  filter (λ b, is_ascii b = true) (list_byte_of_string s).

(** [b.decode("ascii")] raises on a byte outside ASCII. *)
Definition decode_ascii (b : list byte) : outcome string :=
  if forallb is_ascii b then Returns (string_of_list_byte b)
  else Raises UnicodeDecodeError.

Definition sanitize_ascii (cfg : config) (s : cell) : outcome cell :=
  match s with
  | PNone => Returns (PStr EmptyString)
  | _ =>
      if negb (ASCII_ONLY cfg) then Returns s
      else
        match s with
        | PStr t => PStr <$> decode_ascii (encode_ascii_ignore t)
        | _ => Raises AttributeError
        end
  end.

(** ** The world: files, standard output, failure *)

(** A path is the pair of its parent directory and its name. *)
Abbreviation path := (string * string)%type.

(** [base_dir / name] *)
Definition join (base_dir name : string) : path := (base_dir, name).

(** The lines the script prints, held by their variable parts. *)
Inductive message :=
| MsgWorkingDirectory (base_dir : string)
| MsgNotFound (name parent : string)
| MsgMissingColumns (name : string) (missing columns : list string)
| MsgWrote (kept : nat) (name : string)
| MsgFound (users movies : nat)
| MsgDone.

Record world := {
  files : gmap path csv;
  stdout : list message
}.

(** How a run ends when it does not complete: [sys.exit(code)], or an
    exception nobody catches. *)
Inductive failure :=
| SysExit (code : Z)
| Uncaught (e : exn).

Inductive result (A : Type) :=
| Ok (a : A)
| Err (f : failure).
Arguments Ok {A} a.
Arguments Err {A} f.

(** Computations on the world.  A failure keeps the world as it was when
    the failure happened: what was printed or written before stays. *)
Definition M (A : Type) : Type := world → result A * world.

#[global] Instance M_ret : MRet M := λ A a w, (Ok a, w).
#[global] Instance M_bind : MBind M := λ A B k m w,
  match m w with
  | (Ok a, w') => k a w'
  | (Err f, w') => (Err f, w')
  end.

Definition print (msg : message) : M unit := λ w,
  (Ok tt, {| files := files w; stdout := stdout w ++ [msg] |}).

Definition sys_exit {A} (code : Z) : M A := λ w, (Err (SysExit code), w).

Definition lift {A} (o : outcome A) : M A := λ w,
  match o with
  | Returns a => (Ok a, w)
  | Raises e => (Err (Uncaught e), w)
  end.

(** [path.exists()] *)
Definition path_exists (p : path) : M bool := λ w,
  (Ok (bool_decide (is_Some (files w !! p))), w).

(** [path.open("r")] followed by reading the records. *)
Definition open_read (p : path) : M csv := λ w,
  match files w !! p with
  | Some f => (Ok f, w)
  | None => (Err (Uncaught (FileNotFoundError p.2)), w)
  end.

(** [path.open("w")] followed by writing the records [f]. *)
Definition write_csv (p : path) (f : csv) : M unit := λ w,
  (Ok tt, {| files := <[p := f]> (files w); stdout := stdout w |}).

(** ** [ensure_file_with_columns] *)

Definition ensure_file_with_columns (p : path) (required_columns : list string)
  : M unit :=
  found ← path_exists p;
  (if negb found then print (MsgNotFound p.2 p.1);; sys_exit 1 else mret tt);;
  f ← open_read p;
  let columns := default [] (fieldnames f) in
  let missing := filter (λ c, c ∉ columns) required_columns in
  if bool_decide (missing ≠ []) then
    print (MsgMissingColumns p.2 missing columns);; sys_exit 1
  else mret tt.

(** ** Loops over rows *)

(** What one pass through a loop body does: go on with the next row,
    [break], or raise. Each carries the state reached. *)
Inductive control (S : Type) :=
| Continue (s : S)
| Break (s : S)
| Raise (e : exn) (s : S).
Arguments Continue {S} s.
Arguments Break {S} s.
Arguments Raise {S} e s.

(** [for row in rows: body], from state [s]: the final state, and the
    exception that ended the loop if one did. *)
Fixpoint for_each {S R} (body : S → R → control S) (rows : list R) (s : S)
  : S * option exn :=
  match rows with
  | [] => (s, None)
  | row :: rows' =>
      match body s row with
      | Continue s' => for_each body rows' s'
      | Break s' => (s', None)
      | Raise e s' => (s', Some e)
      end
  end.

(** The records written so far (after the header) and the [kept] count. *)
Record writer_state := {
  written : list (list string);
  kept : nat
}.

Definition writer_init : writer_state := {| written := []; kept := 0 |}.

(** [writer.writerow(...)] succeeded with record [rec]; [kept += 1]. *)
Definition emit (rec : list string) (o : writer_state) : writer_state :=
  {| written := written o ++ [rec]; kept := S (kept o) |}.

(** A writer together with a [defaultdict(int)] of per-key counts. *)
Record counting_state := {
  count : gmap Z nat;
  out : writer_state
}.

Definition counting_init : counting_state :=
  {| count := ∅; out := writer_init |}.

(** [count[key] += 1]; returns the new state and the new count. *)
Definition increment (key : Z) (st : counting_state) : counting_state * nat :=
  let n := S (default 0%nat (count st !! key)) in
  ({| count := <[key := n]> (count st); out := out st |}, n).

(** The loop is over: the output file holds the header and what was
    written; an exception propagates, otherwise the count is reported. *)
Definition finish (out_path : path) (header : list string)
    (o : writer_state) (e : option exn) : M unit :=
  write_csv out_path (header :: written o);;
  match e with
  | Some e => lift (Raises e)
  | None => print (MsgWrote (kept o) out_path.2)
  end.

(** ** [build_filtered_ratings] *)

Definition ratings_cols : list string :=
  ["userId"; "movieId"; "rating"; "timestamp"].

Definition ratings_body (cfg : config) (st : counting_state) (row : pydict)
  : control counting_state :=
  match getitem row "userId" ≫= int_of with
  | Raises e => Raise e st
  | Returns user_id =>
      if MAX_USERS cfg <? user_id then Break st
      else
        let '(st, n) := increment user_id st in
        if exceeds (MAX_RATINGS_PER_USER cfg) n then Continue st
        else
          match
            u ← getitem row "userId";
            m ← getitem row "movieId";
            r ← getitem row "rating";
            t ← getitem row "timestamp";
            writerow ratings_cols
              (dict_literal [("userId", u); ("movieId", m);
                             ("rating", r); ("timestamp", t)])
          with
          | Raises e => Raise e st
          | Returns rec => Continue {| count := count st; out := emit rec (out st) |}
          end
  end.

Definition build_filtered_ratings (cfg : config) (base_dir : string) : M unit :=
  let ratings_path := join base_dir "ratings.csv" in
  let out_path := join base_dir "filtered_ratings.csv" in
  ensure_file_with_columns ratings_path ratings_cols;;
  f_in ← open_read ratings_path;
  let '(st, e) := for_each (ratings_body cfg) (DictReader f_in) counting_init in
  finish out_path ratings_cols (out st) e.

(** ** [load_ids_from_filtered_ratings] *)

Definition ids_body (st : gset Z * gset Z) (row : pydict)
  : control (gset Z * gset Z) :=
  match getitem row "userId" ≫= int_of with
  | Raises e => Raise e st
  | Returns user_id =>
      let st := ({[user_id]} ∪ st.1, st.2) in
      match getitem row "movieId" ≫= int_of with
      | Raises e => Raise e st
      | Returns movie_id => Continue (st.1, {[movie_id]} ∪ st.2)
      end
  end.

(** [sorted(ids)] *)
Definition sorted (ids : gset Z) : list Z := merge_sort Z.le (elements ids).

(** [if MAX_MOVIES is not None and len(movie_ids) > MAX_MOVIES:
       movie_ids = set(sorted(movie_ids)[:MAX_MOVIES])] *)
Definition cap_movie_ids (cfg : config) (movie_ids : gset Z) : gset Z :=
  match MAX_MOVIES cfg with
  | Some n =>
      if (n <? size movie_ids)%nat then list_to_set (take n (sorted movie_ids))
      else movie_ids
  | None => movie_ids
  end.

Definition load_ids_from_filtered_ratings (cfg : config) (base_dir : string)
  : M (gset Z * gset Z) :=
  let p := join base_dir "filtered_ratings.csv" in
  ensure_file_with_columns p ratings_cols;;
  f ← open_read p;
  let '(st, e) := for_each ids_body (DictReader f) (∅, ∅) in
  match e with
  | Some e => lift (Raises e)
  | None =>
      let user_ids := st.1 in
      let movie_ids := cap_movie_ids cfg st.2 in
      print (MsgFound (size user_ids) (size movie_ids));;
      mret (user_ids, movie_ids)
  end.

(** ** [build_links_filtered] *)

Definition links_cols : list string := ["movieId"; "imdbId"; "tmdbId"].

Definition links_body (movie_ids : gset Z) (o : writer_state) (row : pydict)
  : control writer_state :=
  match getitem row "movieId" ≫= int_of with
  | Raises e => Raise e o
  | Returns movie_id =>
      if bool_decide (movie_id ∈ movie_ids) then
        match writerow links_cols row with
        | Raises e => Raise e o
        | Returns rec => Continue (emit rec o)
        end
      else Continue o
  end.

Definition build_links_filtered (base_dir : string) (movie_ids : gset Z)
  : M unit :=
  let links_path := join base_dir "links.csv" in
  let out_path := join base_dir "links_filtered.csv" in
  ensure_file_with_columns links_path links_cols;;
  f_in ← open_read links_path;
  let '(o, e) := for_each (links_body movie_ids) (DictReader f_in) writer_init in
  finish out_path links_cols o e.

(** ** [build_tags_filtered] *)

Definition tags_cols : list string := ["userId"; "movieId"; "tag"; "timestamp"].

Definition tags_body (cfg : config) (allowed_movie_ids : gset Z)
    (st : counting_state) (row : pydict) : control counting_state :=
  match getitem row "movieId" ≫= int_of with
  | Raises e => Raise e st
  | Returns movie_id =>
      if bool_decide (movie_id ∉ allowed_movie_ids) then Continue st
      else
        let '(st, n) := increment movie_id st in
        if exceeds (MAX_TAGS_PER_MOVIE cfg) n then Continue st
        else
          match
            u ← getitem row "userId";
            m ← getitem row "movieId";
            g ← getitem row "tag" ≫= sanitize_ascii cfg;
            t ← getitem row "timestamp";
            writerow tags_cols
              (dict_literal [("userId", u); ("movieId", m);
                             ("tag", g); ("timestamp", t)])
          with
          | Raises e => Raise e st
          | Returns rec => Continue {| count := count st; out := emit rec (out st) |}
          end
  end.

Definition build_tags_filtered (cfg : config) (base_dir : string)
    (allowed_movie_ids : gset Z) : M unit :=
  let tags_path := join base_dir "tags.csv" in
  let out_path := join base_dir "tags_filtered.csv" in
  ensure_file_with_columns tags_path tags_cols;;
  f_in ← open_read tags_path;
  let '(st, e) :=
    for_each (tags_body cfg allowed_movie_ids) (DictReader f_in) counting_init in
  finish out_path tags_cols (out st) e.

(** ** [build_movies_filtered] *)

Definition movies_cols : list string := ["movieId"; "title"; "genres"].

Definition movies_body (cfg : config) (allowed_movie_ids : gset Z)
    (o : writer_state) (row : pydict) : control writer_state :=
  match getitem row "movieId" ≫= int_of with
  | Raises e => Raise e o
  | Returns movie_id =>
      if bool_decide (movie_id ∈ allowed_movie_ids) then
        match
          t ← getitem row "title" ≫= sanitize_ascii cfg;
          g ← getitem row "genres" ≫= sanitize_ascii cfg;
          writerow movies_cols
            (dict_literal [("movieId", PInt movie_id);
                           ("title", t); ("genres", g)])
        with
        | Raises e => Raise e o
        | Returns rec => Continue (emit rec o)
        end
      else Continue o
  end.

Definition build_movies_filtered (cfg : config) (base_dir : string)
    (allowed_movie_ids : gset Z) : M unit :=
  let movies_path := join base_dir "movies.csv" in
  let out_path := join base_dir "movies_filtered.csv" in
  ensure_file_with_columns movies_path movies_cols;;
  f_in ← open_read movies_path;
  let '(o, e) :=
    for_each (movies_body cfg allowed_movie_ids) (DictReader f_in) writer_init in
  finish out_path movies_cols o e.

(** ** [main] *)

Definition main (cfg : config) (base_dir : string) : M unit :=
  print (MsgWorkingDirectory base_dir);;
  build_filtered_ratings cfg base_dir;;
  ids ← load_ids_from_filtered_ratings cfg base_dir;
  let movie_ids := ids.2 in
  build_links_filtered base_dir movie_ids;;
  build_tags_filtered cfg base_dir movie_ids;;
  build_movies_filtered cfg base_dir movie_ids;;
  print MsgDone.

(** ** Reading an output back *)

(** The integer a row carries under column [col], if it has one. *)
Definition int_at (col : string) (row : pydict) : option Z :=
  match getitem row col ≫= int_of with
  | Returns z => Some z
  | Raises _ => None
  end.

(** The rows of the file at [p], as a [DictReader] yields them. *)
Definition rows_of (w : world) (p : path) : list pydict :=
  match files w !! p with
  | Some f => DictReader f
  | None => []
  end.

(** What the reader yields from a file with header [cols] and records
    [recs]. *)
Definition readback (cols : list string) (recs : list (list string))
  : list pydict :=
  DictReader_row cols <$> filter (λ r, r ≠ []) recs.

(** How many rows of [rows] carry the integer [k] under column [col]. *)
Definition count_rows (col : string) (k : Z) (rows : list pydict) : nat :=
  length (filter (λ row, int_at col row = Some k) rows).

(** The integers the rows carry under a column, as a set. *)
Definition ids_at (col : string) (rows : list pydict) : gset Z :=
  list_to_set (omap (int_at col) rows).

(** ** Vocabulary of the statements *)

(** The input at [p] passes [ensure_file_with_columns]. *)
Definition validated (p : path) (cols : list string) (w : world) : Prop :=
  ensure_file_with_columns p cols w = (Ok tt, w).

(** Every row carries, under [movieId], an integer of [ids]. *)
Definition movie_ids_within (ids : gset Z) (rows : list pydict) : Prop :=
  Forall (λ row, ∃ m, int_at "movieId" row = Some m ∧ m ∈ ids) rows.

(** The record [rec], read back under header [cols], carries an identifier
    of [ids] under [movieId]. *)
Definition carries_allowed (cols : list string) (ids : gset Z)
    (rec : list string) : Prop :=
  ∃ m, int_at "movieId" (DictReader_row cols rec) = Some m ∧ m ∈ ids.

(** The bytes of [s] that are ASCII, in their order in [s]. *)
Definition ascii_subsequence (s : string) : string :=
  string_of_list_byte (filter (λ b, is_ascii b = true) (list_byte_of_string s)).

(** A row of the filtered ratings both of whose identifiers read as
    integers. *)
Definition has_ids (row : pydict) : Prop :=
  is_Some (int_at "userId" row) ∧ is_Some (int_at "movieId" row).

(** The state a loop body leaves behind, however it ends. *)
Definition state_of {S} (c : control S) : S :=
  match c with
  | Continue s | Break s | Raise _ s => s
  end.

(** What a counting loop maintains, for a cap [n] and the column [col]
    the counter is keyed by: of the rows written so far, those of key [k]
    number at most [count[k]], and at most [n]. *)
Definition capped (col : string) (cols : list string) (n : nat)
    (st : counting_state) : Prop :=
  ∀ k, (count_rows col k (readback cols (written (out st)))
        ≤ default 0 (count st !! k))%nat
       ∧ (count_rows col k (readback cols (written (out st))) ≤ n)%nat.

(** [w] with [msg] printed. *)
Definition printed (msg : message) (w : world) : world :=
  {| files := files w; stdout := stdout w ++ [msg] |}.

(** [w] with the file at [p] holding [f]. *)
Definition with_file (p : path) (f : csv) (w : world) : world :=
  {| files := <[p := f]> (files w); stdout := stdout w |}.

(** ** The stages of a run and their artifacts *)




(** [msg] is the diagnostic for what is wrong with the source at [p] in
    [w]: the file is absent and [msg] names it and its directory, or its
    header lacks required columns and [msg] names the file, lists the
    required columns that are missing and the columns found. *)
Definition diagnoses (p : path) (cols : list string) (w : world)
    (msg : message) : Prop :=
  match files w !! p with
  | None => msg = MsgNotFound p.2 p.1
  | Some f =>
      let found := default [] (fieldnames f) in
      let missing := filter (λ c, c ∉ found) cols in
      missing ≠ [] ∧ msg = MsgMissingColumns p.2 missing found
  end.





(** ** Sample inputs

    [demo_world]: three ratings by two users, the other tables mention
    two movies; [demo_config] keeps one user and one rating per user. *)

Definition demo_config : config :=
  {| MAX_USERS := 1;
     MAX_MOVIES := Some 2%nat;
     MAX_TAGS_PER_MOVIE := Some 1%nat;
     MAX_RATINGS_PER_USER := Some 1%nat;
     ASCII_ONLY := true |}.

(** [demo_config] without the cap on ratings per user. *)
Definition uncapped_config : config :=
  {| MAX_USERS := 1;
     MAX_MOVIES := Some 2%nat;
     MAX_TAGS_PER_MOVIE := Some 1%nat;
     MAX_RATINGS_PER_USER := None;
     ASCII_ONLY := true |}.

Definition demo_files : gmap path csv :=
  {[ ("data", "ratings.csv") :=
       [ratings_cols; ["1"; "10"; "4.0"; "100"]; ["1"; "20"; "3.5"; "101"];
        ["2"; "10"; "5.0"; "102"]];
     ("data", "links.csv") :=
       [links_cols; ["10"; "0114709"; "862"]; ["20"; "0113497"; "8844"]];
     ("data", "tags.csv") :=
       [tags_cols; ["1"; "10"; "café"; "100"]; ["1"; "10"; "pixar"; "101"];
        ["1"; "20"; "good"; "102"]];
     ("data", "movies.csv") :=
       [movies_cols; ["010"; "Toy Story (1995)"; "Animation|Comedy"];
        ["20"; "Jumanji (1995)"; "Adventure"]] ]}.

Definition demo_world : world := {| files := demo_files; stdout := [] |}.

(** A ratings table that is not sorted by user: user 7 sits between
    two rows of user 1. *)
Definition unsorted_ratings : csv :=
  [ratings_cols; ["1"; "10"; "4.0"; "100"]; ["7"; "10"; "5.0"; "102"];
   ["1"; "20"; "3.5"; "101"]].

(** Filtered ratings that mention movies 5, 3, 9, 1 in this order. *)
Definition scenario_files : gmap path csv :=
  {[ ("data", "filtered_ratings.csv") :=
       [ratings_cols; ["1"; "5"; "4.0"; "100"]; ["1"; "3"; "3.5"; "101"];
        ["2"; "9"; "5.0"; "102"]; ["2"; "1"; "2.0"; "103"]] ]}.

Definition scenario_world : world := {| files := scenario_files; stdout := [] |}.


(** ** Vocabulary of the further properties *)

(** A value a [DictReader] row can hold: a text, or [None]. *)
Definition textual (v : cell) : Prop :=
  match v with
  | PInt _ => False
  | _ => True
  end.

(** Every column of [cols] is a key of [row], with a text or [None]. *)
Definition well_keyed (cols : list string) (row : pydict) : Prop :=
  ∀ c, c ∈ cols → ∃ v, items row !! c = Some v ∧ textual v.

(** What the writer prints for [row[c]]: the text, and the empty text
    for [None]. *)
Definition cell_text (row : pydict) (c : string) : string :=
  match items row !! c with
  | Some v => render v
  | None => EmptyString
  end.

(** The record of the columns [cols] of [row], as the writer prints it. *)
Definition project (cols : list string) (row : pydict) : list string :=
  cell_text row <$> cols.

(** [sanitize_ascii] on a text, as a function. *)
Definition sanitize_text (cfg : config) (s : string) : string :=
  if ASCII_ONLY cfg then ascii_subsequence s else s.

(** All bytes of [s] are below 128. *)
Definition all_ascii (s : string) : Prop :=
  forallb is_ascii (list_byte_of_string s) = true.

(** The record the tag filter writes for [row]. *)
Definition tags_record (cfg : config) (row : pydict) : list string :=
  [cell_text row "userId"; cell_text row "movieId";
   sanitize_text cfg (cell_text row "tag"); cell_text row "timestamp"].

(** The record the metadata filter writes for [row], whose [movieId]
    reads as [movie_id]. *)
Definition movies_record (cfg : config) (movie_id : Z) (row : pydict)
  : list string :=
  [py_str movie_id; sanitize_text cfg (cell_text row "title");
   sanitize_text cfg (cell_text row "genres")].

(** The exceptions [int] raises. *)
Definition int_error (e : exn) : Prop :=
  match e with
  | InvalidLiteral _ | IntOfNone => True
  | _ => False
  end.

(** The four files a run may write. *)
Definition output_paths (base_dir : string) : list path :=
  [join base_dir "filtered_ratings.csv"; join base_dir "links_filtered.csv";
   join base_dir "tags_filtered.csv"; join base_dir "movies_filtered.csv"].

(** Outside the paths [ps] the files of [w'] are those of [w]. *)
Definition same_outside (ps : list path) (w w' : world) : Prop :=
  ∀ q : path, q ∉ ps → files w' !! q = files w !! q.







(** A link table with a column beyond the three required. *)
Definition wide_links : csv :=
  [["movieId"; "imdbId"; "tmdbId"; "source"]; ["10"; "0114709"; "862"; "web"]].


(** The four source tables are the same in [w] and [v]. *)
Definition same_sources (base_dir : string) (w v : world) : Prop :=
  ∀ name : string,
    name ∈ ["ratings.csv"; "links.csv"; "tags.csv"; "movies.csv"] →
    files w !! join base_dir name = files v !! join base_dir name.

(** Two runs in step, started from [w] and [v] and now at [w'] and [v']:
    the files at [ps] have been written, with the same content in both,
    and every other file is as it was at the start. *)
Definition in_step (ps : list path) (w v w' v' : world) : Prop :=
  (∀ q : path, q ∈ ps → files w' !! q = files v' !! q) ∧
  (∀ q : path, q ∉ ps →
     files w' !! q = files w !! q ∧ files v' !! q = files v !! q).

(** * Properties *)

(** ** [int] and [str] *)

Section py_int_facts.
Import PyInt.

Lemma lstrip_head c l : is_space c = false → lstrip (c :: l) = c :: l.
Proof. intros H. simpl. by rewrite H. Qed.

Lemma strip_no_space l :
  Forall (λ c, is_space c = false) l → strip l = l.
Proof.
  intros H. unfold strip.
  assert (Hl : ∀ l', Forall (λ c, is_space c = false) l' → lstrip l' = l').
  { intros [|c l'] Hf; [done|]. apply lstrip_head. by inversion Hf. }
  rewrite (Hl l H), Hl; [apply rev_involutive|].
  by apply Forall_rev.
Qed.

Lemma uint_chars_no_space d : Forall (λ c, is_space c = false) (uint_chars d).
Proof. induction d; simpl; constructor; done. Qed.

Lemma digits_uint_chars d prev :
  d ≠ Nil ∨ prev = true → digits prev (uint_chars d) = Some d.
Proof.
  revert prev. induction d; intros prev Hd; simpl;
    try (rewrite IHd; [done | by right]).
  destruct Hd as [? | ->]; done.
Qed.

Lemma of_chars_uint_chars d :
  d ≠ Nil → of_chars (uint_chars d) = Some (Z.of_int (Pos d)).
Proof.
  intros Hd. unfold of_chars.
  rewrite strip_no_space by apply uint_chars_no_space.
  destruct d; [done | ..]; simpl;
    (rewrite digits_uint_chars; [done | by right]).
Qed.

Lemma of_chars_neg_uint_chars d :
  d ≠ Nil → of_chars ("-"%char :: uint_chars d) = Some (Z.of_int (Neg d)).
Proof.
  intros Hd. unfold of_chars.
  rewrite strip_no_space by (constructor; [done | apply uint_chars_no_space]).
  rewrite digits_uint_chars; [done | by left].
Qed.

Lemma pos_to_uint_not_nil p : Pos.to_uint p ≠ Nil.
Proof.
  intros H. pose proof (DecimalPos.Unsigned.of_to p) as Hp.
  rewrite H in Hp. simpl in Hp. done.
Qed.

End py_int_facts.

(** [int(str(z)) == z] *)
Lemma py_int_py_str z : py_int (py_str z) = Some z.
Proof.
  unfold py_int, py_str, PyInt.of_string, PyInt.to_string.
  rewrite list_ascii_of_string_of_list_ascii.
  rewrite <- (DecimalZ.of_to z) at 2.
  destruct z as [|p|p]; simpl.
  - reflexivity.
  - apply (of_chars_uint_chars _ (pos_to_uint_not_nil p)).
  - apply (of_chars_neg_uint_chars _ (pos_to_uint_not_nil p)).
Qed.
(** ** The sanitizer *)

Lemma filter_ascii_all (l : list byte) :
  forallb is_ascii (filter (λ b, is_ascii b = true) l) = true.
Proof.
  induction l as [|b l IH]; [done|].
  rewrite filter_cons. destruct (decide (is_ascii b = true)) as [Hb|]; [|done].
  simpl. by rewrite Hb, IH.
Qed.

Lemma filter_ascii_idemp (l : list byte) :
  filter (λ b, is_ascii b = true) (filter (λ b, is_ascii b = true) l)
  = filter (λ b, is_ascii b = true) l.
Proof.
  induction l as [|b l IH]; [done|].
  rewrite filter_cons. destruct (decide (is_ascii b = true)) as [Hb|]; [|done].
  rewrite filter_cons. rewrite decide_True by done. by rewrite IH.
Qed.

Lemma decode_encode s :
  decode_ascii (encode_ascii_ignore s) = Returns (ascii_subsequence s).
Proof.
  unfold decode_ascii, encode_ascii_ignore. by rewrite filter_ascii_all.
Qed.

Lemma ascii_subsequence_idemp s :
  ascii_subsequence (ascii_subsequence s) = ascii_subsequence s.
Proof.
  unfold ascii_subsequence.
  by rewrite list_byte_of_string_of_list_byte, filter_ascii_idemp.
Qed.

Lemma sanitize_ascii_str cfg s :
  sanitize_ascii cfg (PStr s)
  = Returns (PStr (if ASCII_ONLY cfg then ascii_subsequence s else s)).
Proof.
  unfold sanitize_ascii. destruct (ASCII_ONLY cfg); simpl; [|done].
  by rewrite decode_encode.
Qed.

(** C5. [sanitize_ascii] never raises on a text or on [None].  With
    [ASCII_ONLY] set it returns, for a text, the subsequence of its ASCII
    characters in their original order (the bytes below 128 of its UTF-8
    form) and, for [None], the empty text; with [ASCII_ONLY] unset it
    returns a text unchanged and still the empty text for [None]. *)
Theorem sanitize_ascii_total (cfg : config) :
  sanitize_ascii cfg PNone = Returns (PStr EmptyString) ∧
  (∀ s, sanitize_ascii cfg (PStr s)
        = Returns (PStr (if ASCII_ONLY cfg then ascii_subsequence s else s))) ∧
  (∀ s, list_byte_of_string (ascii_subsequence s)
        = filter (λ b, is_ascii b = true) (list_byte_of_string s)).
Proof.
  split; [done|]. split; [apply sanitize_ascii_str|].
  intros s. unfold ascii_subsequence. apply list_byte_of_string_of_list_byte.
Qed.

(** C8. [sanitize_ascii] is idempotent in both modes: applied to its own
    result it returns that result again.  The first part states it for
    every value (a raise propagates); the second spells it out for texts,
    on which the function always returns. *)
Theorem sanitize_ascii_idempotent (cfg : config) :
  (∀ v, sanitize_ascii cfg v ≫= sanitize_ascii cfg = sanitize_ascii cfg v) ∧
  (∀ s, ∃ t, sanitize_ascii cfg (PStr s) = Returns (PStr t)
             ∧ sanitize_ascii cfg (PStr t) = Returns (PStr t)).
Proof.
  split.
  - intros [|s|z].
    + change (sanitize_ascii cfg (PStr EmptyString) = Returns (PStr EmptyString)).
      rewrite sanitize_ascii_str. destruct (ASCII_ONLY cfg); done.
    + rewrite sanitize_ascii_str. unfold mbind, outcome_bind.
      rewrite sanitize_ascii_str.
      destruct (ASCII_ONLY cfg); [|done]. by rewrite ascii_subsequence_idemp.
    + unfold mbind, outcome_bind.
      destruct (sanitize_ascii cfg (PInt z)) as [v|e] eqn:E; [|done].
      unfold sanitize_ascii in E. destruct (ASCII_ONLY cfg) eqn:Ea; [done|].
      simpl in E. injection E as <-. unfold sanitize_ascii. by rewrite Ea.
  - intros s. eexists. split; [apply sanitize_ascii_str|].
    rewrite sanitize_ascii_str.
    destruct (ASCII_ONLY cfg); [|done]. by rewrite ascii_subsequence_idemp.
Qed.

Example sanitize_cafe :
  sanitize_ascii script_config (PStr "café") = Returns (PStr "caf").
Proof. reflexivity. Qed.

(** ** The validator *)

Lemma ensure_file_with_columns_eq (p : path) cols w :
  ensure_file_with_columns p cols w =
  match files w !! p with
  | None => (Err (SysExit 1), printed (MsgNotFound p.2 p.1) w)
  | Some f =>
      let columns := default [] (fieldnames f) in
      let missing := filter (λ c, c ∉ columns) cols in
      if bool_decide (missing ≠ []) then
        (Err (SysExit 1), printed (MsgMissingColumns p.2 missing columns) w)
      else (Ok tt, w)
  end.
Proof.
  unfold ensure_file_with_columns, mbind, M_bind, path_exists, open_read.
  destruct (files w !! p) as [f|] eqn:Hf; simpl.
  - rewrite Hf. by case_bool_decide.
  - done.
Qed.

Lemma validated_inv (p : path) cols w :
  validated p cols w →
  ∃ f, files w !! p = Some f ∧ cols ⊆ default [] (fieldnames f).
Proof.
  unfold validated. rewrite ensure_file_with_columns_eq.
  destruct (files w !! p) as [f|]; [|done]. simpl.
  case_bool_decide as Hm; [done|]. intros _.
  exists f. split; [done|]. intros c Hc.
  destruct (decide (c ∈ default [] (fieldnames f))) as [|Hn]; [done|].
  assert (c ∈ filter (λ c, c ∉ default [] (fieldnames f)) cols) as Hin
    by (apply list_elem_of_filter; done).
  rewrite Hm in Hin. by apply elem_of_nil in Hin.
Qed.

Lemma validated_intro (p : path) cols f w :
  files w !! p = Some f → cols ⊆ default [] (fieldnames f) → validated p cols w.
Proof.
  intros Hf Hsub. unfold validated. rewrite ensure_file_with_columns_eq, Hf.
  simpl. rewrite bool_decide_false; [done|].
  intros Hm. apply Hm. clear Hm.
  induction cols as [|c cols IH]; [done|].
  rewrite filter_cons, decide_False.
  - apply IH. intros x Hx. apply Hsub. by right.
  - intros Hn. apply Hn, Hsub. by left.
Qed.

(** C10. A source that exists but is empty has no header: the validator
    reports every required column as missing, with an empty list of
    found columns, and exits with status 1; it is not reported as a
    missing file. *)
Theorem empty_file_reports_missing_columns
    (p : path) (cols : list string) (w : world) :
  files w !! p = Some ([] : csv) → cols ≠ [] →
  ensure_file_with_columns p cols w
  = (Err (SysExit 1), printed (MsgMissingColumns p.2 cols []) w).
Proof.
  intros Hf Hc. rewrite ensure_file_with_columns_eq, Hf. cbv zeta.
  change (default [] (fieldnames [])) with (@nil string).
  assert (filter (λ c : string, c ∉ @nil string) cols = cols) as ->.
  { clear. induction cols as [|c cols IH]; [done|].
    rewrite filter_cons, decide_True by apply not_elem_of_nil. by rewrite IH. }
  by rewrite bool_decide_true.
Qed.

(** ** Running a stage *)

Lemma finish_eq (p : path) header o e w :
  finish p header o e w =
  let w' := {| files := <[p := header :: written o]> (files w);
               stdout := stdout w |} in
  match e with
  | Some e => (Err (Uncaught e), w')
  | None => (Ok tt, printed (MsgWrote (kept o) p.2) w')
  end.
Proof. by destruct e. Qed.

Lemma validated_run {A} (p : path) cols f (k : csv → M A) w :
  validated p cols w → files w !! p = Some f →
  (ensure_file_with_columns p cols;; f_in ← open_read p; k f_in) w = k f w.
Proof.
  intros Hv Hf. unfold mbind, M_bind at 1. rewrite Hv.
  unfold M_bind, open_read. by rewrite Hf.
Qed.

Lemma rows_of_finish (p : path) header o e w :
  rows_of (finish p header o e w).2 p
  = DictReader_row header <$> filter (λ r, r ≠ []) (written o).
Proof.
  rewrite finish_eq. unfold rows_of.
  destruct e; simpl; by rewrite lookup_insert_eq.
Qed.

Lemma for_each_invariant {S R} (I : S → Prop) (body : S → R → control S) rows s :
  (∀ s row, I s → I (state_of (body s row))) →
  I s → I (for_each body rows s).1.
Proof.
  intros Hbody. revert s. induction rows as [|row rows IH]; intros s Hs; [done|].
  simpl. specialize (Hbody s row Hs).
  destruct (body s row); simpl in *; auto.
Qed.

(** ** Reading back what the writer wrote *)

Lemma zip_fmap_lookup (g : string → string) cols (d : gmap string cell) c :
  foldl (λ d kv, <[kv.1 := PStr kv.2]> d) d (zip cols (g <$> cols)) !! c
  = if decide (c ∈ cols) then Some (PStr (g c)) else d !! c.
Proof.
  revert d. induction cols as [|k cols IH]; intros d.
  - destruct (decide (c ∈ [])) as [Hc|]; [by apply elem_of_nil in Hc | done].
  - cbn [fmap list_fmap zip zip_with foldl]. fold (fmap g cols). rewrite IH.
    destruct (decide (c ∈ cols)) as [Hc|Hc].
    + by rewrite decide_True by (by right).
    + destruct (decide (c = k)) as [->|Hk].
      * rewrite decide_True by (by left). cbn. by rewrite lookup_insert_eq.
      * rewrite decide_False by (by intros [?|?]%elem_of_cons).
        cbn. by rewrite lookup_insert_ne.
Qed.

Lemma DictReader_row_fmap (g : string → string) cols c :
  c ∈ cols →
  items (DictReader_row cols (g <$> cols)) !! c = Some (PStr (g c)).
Proof.
  intros Hc. unfold DictReader_row. rewrite length_fmap.
  rewrite Nat.ltb_irrefl. simpl.
  by rewrite zip_fmap_lookup, decide_True.
Qed.

Lemma writerow_inv fn d rec :
  writerow fn d = Returns rec →
  rec = (λ k, render (default (PStr EmptyString) (items d !! k))) <$> fn.
Proof.
  unfold writerow. destruct (_ && _); [|done]. by intros [= <-].
Qed.

Lemma int_of_render v z :
  int_of v = Returns z → int_of (PStr (render v)) = Returns z.
Proof.
  destruct v as [|s|z']; simpl; [done | done |].
  intros [= ->]. by rewrite py_int_py_str.
Qed.

(** A row written with integer [z] under column [c] is read back with
    [z] under [c]. *)
Lemma int_at_readback cols d rec c v z :
  writerow cols d = Returns rec → c ∈ cols →
  items d !! c = Some v → int_of v = Returns z →
  int_at c (DictReader_row cols rec) = Some z.
Proof.
  intros Hw Hc Hv Hz. apply writerow_inv in Hw as ->.
  unfold int_at, getitem. rewrite DictReader_row_fmap by done.
  rewrite Hv. apply int_of_render in Hz.
  unfold mbind, outcome_bind.
  change (default (PStr EmptyString) (Some v)) with v. by rewrite Hz.
Qed.

Lemma getitem_int_inv row c z :
  getitem row c ≫= int_of = Returns z →
  ∃ v, items row !! c = Some v ∧ int_of v = Returns z.
Proof.
  unfold getitem. destruct (items row !! c) as [v|]; [|done].
  intros H. by exists v.
Qed.

(** ** Cross-artifact consistency of movie identifiers *)

Lemma links_body_within ids o row :
  Forall (carries_allowed links_cols ids) (written o) →
  Forall (carries_allowed links_cols ids) (written (state_of (links_body ids o row))).
Proof.
  intros Ho. unfold links_body.
  destruct (getitem row "movieId" ≫= int_of) as [movie_id|] eqn:E; [|done].
  case_bool_decide as Hin; [|done].
  destruct (writerow links_cols row) as [rec|] eqn:Ew; [|done].
  apply getitem_int_inv in E as (v & Hv & Hz).
  simpl. apply Forall_app. split; [done|]. apply Forall_singleton.
  exists movie_id. split; [|done].
  eapply int_at_readback; [done | | done | done]. set_solver.
Qed.

Lemma bind_returns {A B} (m : outcome A) (k : A → outcome B) b :
  m ≫= k = Returns b → ∃ a, m = Returns a ∧ k a = Returns b.
Proof. destruct m as [a|]; [|done]. intros H. by exists a. Qed.

Lemma getitem_returns row c v :
  getitem row c = Returns v ↔ items row !! c = Some v.
Proof.
  unfold getitem. destruct (items row !! c); split; congruence.
Qed.

(** Case analysis on the expression a loop body evaluates before it
    writes: either it raised, or it returned the record [rec]. *)
Ltac destruct_written rec E :=
  match goal with
  | |- context [match ?X with Returns _ => _ | Raises _ => _ end] =>
      destruct X as [rec|] eqn:E; [|done]
  end.

Lemma tags_body_within cfg ids st row :
  Forall (carries_allowed tags_cols ids) (written (out st)) →
  Forall (carries_allowed tags_cols ids)
         (written (out (state_of (tags_body cfg ids st row)))).
Proof.
  intros Ho. unfold tags_body.
  destruct (getitem row "movieId" ≫= int_of) as [movie_id|] eqn:E; [|done].
  case_bool_decide as Hin; [done|].
  unfold increment. destruct (exceeds _ _); [done|].
  apply getitem_int_inv in E as (v & Hv & Hz).
  destruct_written rec Ew.
  apply bind_returns in Ew as (u & _ & Ew).
  apply bind_returns in Ew as (m & Hm%getitem_returns & Ew).
  apply bind_returns in Ew as (g & _ & Ew).
  apply bind_returns in Ew as (t & _ & Ew).
  assert (m = v) as -> by congruence.
  simpl. apply Forall_app. split; [done|]. apply Forall_singleton.
  exists movie_id. split; [|done].
  eapply int_at_readback; [exact Ew | set_solver | reflexivity | done].
Qed.

Lemma movies_body_within cfg ids o row :
  Forall (carries_allowed movies_cols ids) (written o) →
  Forall (carries_allowed movies_cols ids)
         (written (state_of (movies_body cfg ids o row))).
Proof.
  intros Ho. unfold movies_body.
  destruct (getitem row "movieId" ≫= int_of) as [movie_id|] eqn:E; [|done].
  case_bool_decide as Hin; [|done].
  destruct_written rec Ew.
  apply bind_returns in Ew as (t & _ & Ew).
  apply bind_returns in Ew as (g & _ & Ew).
  simpl. apply Forall_app. split; [done|]. apply Forall_singleton.
  exists movie_id. split; [|done].
  eapply int_at_readback; [exact Ew | set_solver | reflexivity | done].
Qed.

Lemma within_readback cols ids (recs : list (list string)) :
  Forall (carries_allowed cols ids) recs →
  movie_ids_within ids (DictReader_row cols <$> filter (λ r, r ≠ []) recs).
Proof.
  intros H. unfold movie_ids_within. apply Forall_fmap.
  rewrite Forall_forall in H |- *.
  intros rec [_ Hin]%list_elem_of_filter. by apply H.
Qed.

Lemma build_links_filtered_within base_dir ids w :
  validated (join base_dir "links.csv") links_cols w →
  movie_ids_within ids
    (rows_of (build_links_filtered base_dir ids w).2
       (join base_dir "links_filtered.csv")).
Proof.
  intros Hv. destruct (validated_inv _ _ _ Hv) as (f & Hf & _).
  unfold build_links_filtered. cbv zeta.
  rewrite (validated_run _ _ f) by done.
  destruct (for_each _ _ _) as [o e] eqn:E.
  rewrite rows_of_finish. apply within_readback.
  change o with (o, e).1. rewrite <- E.
  apply (for_each_invariant
           (λ o, Forall (carries_allowed links_cols ids) (written o)));
    [intros; by apply links_body_within | constructor].
Qed.

Lemma build_tags_filtered_within cfg base_dir ids w :
  validated (join base_dir "tags.csv") tags_cols w →
  movie_ids_within ids
    (rows_of (build_tags_filtered cfg base_dir ids w).2
       (join base_dir "tags_filtered.csv")).
Proof.
  intros Hv. destruct (validated_inv _ _ _ Hv) as (f & Hf & _).
  unfold build_tags_filtered. cbv zeta.
  rewrite (validated_run _ _ f) by done.
  destruct (for_each _ _ _) as [st e] eqn:E.
  rewrite rows_of_finish. apply within_readback.
  change st with (st, e).1. rewrite <- E.
  apply (for_each_invariant
           (λ st, Forall (carries_allowed tags_cols ids) (written (out st))));
    [intros; by apply tags_body_within | constructor].
Qed.

Lemma build_movies_filtered_within cfg base_dir ids w :
  validated (join base_dir "movies.csv") movies_cols w →
  movie_ids_within ids
    (rows_of (build_movies_filtered cfg base_dir ids w).2
       (join base_dir "movies_filtered.csv")).
Proof.
  intros Hv. destruct (validated_inv _ _ _ Hv) as (f & Hf & _).
  unfold build_movies_filtered. cbv zeta.
  rewrite (validated_run _ _ f) by done.
  destruct (for_each _ _ _) as [o e] eqn:E.
  rewrite rows_of_finish. apply within_readback.
  change o with (o, e).1. rewrite <- E.
  apply (for_each_invariant
           (λ o, Forall (carries_allowed movies_cols ids) (written o)));
    [intros; by apply movies_body_within | constructor].
Qed.

Example demo_run :
  let r := main demo_config "data" demo_world in
  r.1 = Ok tt ∧
  stdout r.2 = [MsgWorkingDirectory "data"; MsgWrote 1 "filtered_ratings.csv";
                MsgFound 1 1; MsgWrote 1 "links_filtered.csv";
                MsgWrote 1 "tags_filtered.csv"; MsgWrote 1 "movies_filtered.csv";
                MsgDone] ∧
  files r.2 !! ("data", "filtered_ratings.csv")
  = Some [ratings_cols; ["1"; "10"; "4.0"; "100"]] ∧
  files r.2 !! ("data", "links_filtered.csv")
  = Some [links_cols; ["10"; "0114709"; "862"]] ∧
  files r.2 !! ("data", "tags_filtered.csv")
  = Some [tags_cols; ["1"; "10"; "caf"; "100"]] ∧
  files r.2 !! ("data", "movies_filtered.csv")
  = Some [movies_cols; ["10"; "Toy Story (1995)"; "Animation|Comedy"]].
Proof. vm_compute. repeat split. Qed.

(** ** Caps per key *)

Lemma count_rows_app col k rows1 rows2 :
  count_rows col k (rows1 ++ rows2)%list
  = (count_rows col k rows1 + count_rows col k rows2)%nat.
Proof. unfold count_rows. by rewrite filter_app, length_app. Qed.

Lemma count_rows_singleton col k row :
  count_rows col k [row] = if decide (int_at col row = Some k) then 1%nat else 0%nat.
Proof.
  unfold count_rows. rewrite filter_cons, filter_nil.
  by destruct (decide (int_at col row = Some k)).
Qed.

Lemma writerow_not_nil cols d rec :
  cols ≠ [] → writerow cols d = Returns rec → rec ≠ [].
Proof.
  intros Hc ->%writerow_inv. by destruct cols.
Qed.

Lemma readback_snoc cols recs rec :
  rec ≠ [] →
  readback cols (recs ++ [rec])%list
  = (readback cols recs ++ [DictReader_row cols rec])%list.
Proof.
  intros Hr. unfold readback.
  rewrite filter_app, filter_cons, decide_True by done.
  by rewrite filter_nil, fmap_app.
Qed.

Lemma capped_init col cols n : capped col cols n counting_init.
Proof. intros k. cbn. unfold count_rows. cbn. lia. Qed.

Lemma capped_increment col cols n key st :
  capped col cols n st → capped col cols n (increment key st).1.
Proof.
  intros H k. destruct (H k) as [H1 H2]. split; [|done]. cbn.
  destruct (decide (k = key)) as [->|Hk].
  - rewrite lookup_insert_eq. cbn. lia.
  - by rewrite lookup_insert_ne.
Qed.

Lemma capped_emit col cols n key st d rec v :
  capped col cols n st →
  exceeds (Some n) (S (default 0%nat (count st !! key))) = false →
  cols ≠ [] → col ∈ cols →
  writerow cols d = Returns rec →
  items d !! col = Some v → int_of v = Returns key →
  capped col cols n
    {| count := count (increment key st).1;
       out := emit rec (out (increment key st).1) |}.
Proof.
  intros H Hex Hcols Hcol Hw Hv Hz k.
  unfold exceeds in Hex. apply Nat.ltb_ge in Hex.
  unfold increment, emit. cbn [fst count out written].
  rewrite readback_snoc by (by eapply writerow_not_nil).
  rewrite count_rows_app, count_rows_singleton.
  rewrite (int_at_readback _ _ _ _ _ _ Hw Hcol Hv Hz).
  destruct (H k) as [H1 H2].
  destruct (decide (k = key)) as [->|Hk].
  - rewrite lookup_insert_eq, decide_True by done. cbn [default from_option id]. lia.
  - rewrite lookup_insert_ne, decide_False by congruence. lia.
Qed.

Lemma ratings_body_capped cfg n st row :
  MAX_RATINGS_PER_USER cfg = Some n →
  capped "userId" ratings_cols n st →
  capped "userId" ratings_cols n (state_of (ratings_body cfg st row)).
Proof.
  intros Hn Hst. unfold ratings_body.
  destruct (getitem row "userId" ≫= int_of) as [user_id|] eqn:E; [|done].
  destruct (MAX_USERS cfg <? user_id); [done|].
  pose proof (capped_increment _ _ _ user_id _ Hst) as Hinc.
  unfold increment in *. rewrite Hn.
  destruct (exceeds _ _) eqn:Hex; [done|].
  apply getitem_int_inv in E as (v & Hv & Hz).
  destruct_written rec Ew.
  apply bind_returns in Ew as (u & Hu%getitem_returns & Ew).
  apply bind_returns in Ew as (m & _ & Ew).
  apply bind_returns in Ew as (r & _ & Ew).
  apply bind_returns in Ew as (t & _ & Ew).
  assert (u = v) as -> by congruence.
  cbn [state_of].
  eapply (capped_emit _ _ _ user_id st);
    [done | done | done | set_solver | exact Ew | reflexivity | done].
Qed.

Lemma tags_body_capped cfg ids n st row :
  MAX_TAGS_PER_MOVIE cfg = Some n →
  capped "movieId" tags_cols n st →
  capped "movieId" tags_cols n (state_of (tags_body cfg ids st row)).
Proof.
  intros Hn Hst. unfold tags_body.
  destruct (getitem row "movieId" ≫= int_of) as [movie_id|] eqn:E; [|done].
  case_bool_decide; [done|].
  pose proof (capped_increment _ _ _ movie_id _ Hst) as Hinc.
  unfold increment in *. rewrite Hn.
  destruct (exceeds _ _) eqn:Hex; [done|].
  apply getitem_int_inv in E as (v & Hv & Hz).
  destruct_written rec Ew.
  apply bind_returns in Ew as (u & _ & Ew).
  apply bind_returns in Ew as (m & Hm%getitem_returns & Ew).
  apply bind_returns in Ew as (g & _ & Ew).
  apply bind_returns in Ew as (t & _ & Ew).
  assert (m = v) as -> by congruence.
  cbn [state_of].
  eapply (capped_emit _ _ _ movie_id st);
    [done | done | done | set_solver | exact Ew | reflexivity | done].
Qed.

(** C3. With the per-user cap enabled, the filtered ratings hold at most
    [MAX_RATINGS_PER_USER] rows of any one user; with the per-movie cap
    enabled, the filtered tags hold at most [MAX_TAGS_PER_MOVIE] rows of
    any one movie.  Rows are counted by the integer their [userId]
    (resp. [movieId]) cell reads as, once the source has passed
    validation. *)
Theorem caps_enforced (cfg : config) (base_dir : string) (w : world) (n : nat) :
  (MAX_RATINGS_PER_USER cfg = Some n →
   validated (join base_dir "ratings.csv") ratings_cols w →
   ∀ u, (count_rows "userId" u
           (rows_of (build_filtered_ratings cfg base_dir w).2
              (join base_dir "filtered_ratings.csv")) ≤ n)%nat) ∧
  (MAX_TAGS_PER_MOVIE cfg = Some n →
   validated (join base_dir "tags.csv") tags_cols w →
   ∀ allowed_movie_ids m,
     (count_rows "movieId" m
        (rows_of (build_tags_filtered cfg base_dir allowed_movie_ids w).2
           (join base_dir "tags_filtered.csv")) ≤ n)%nat).
Proof.
  split; intros Hn Hv; destruct (validated_inv _ _ _ Hv) as (f & Hf & _).
  - intros u. unfold build_filtered_ratings. cbv zeta.
    rewrite (validated_run _ _ f) by done.
    destruct (for_each _ _ _) as [st e] eqn:E.
    rewrite rows_of_finish.
    change st with (st, e).1. rewrite <- E.
    apply (for_each_invariant (capped "userId" ratings_cols n));
      [intros; by apply ratings_body_capped | apply capped_init].
  - intros ids m. unfold build_tags_filtered. cbv zeta.
    rewrite (validated_run _ _ f) by done.
    destruct (for_each _ _ _) as [st e] eqn:E.
    rewrite rows_of_finish.
    change st with (st, e).1. rewrite <- E.
    apply (for_each_invariant (capped "movieId" tags_cols n));
      [intros; by apply tags_body_capped | apply capped_init].
Qed.

Lemma caps_enforced_witness :
  (∀ u, (count_rows "userId" u
           (rows_of (build_filtered_ratings demo_config "data" demo_world).2
              (join "data" "filtered_ratings.csv")) ≤ 1)%nat) ∧
  (∀ m, (count_rows "movieId" m
           (rows_of (build_tags_filtered demo_config "data" {[10%Z; 20%Z]} demo_world).2
              (join "data" "tags_filtered.csv")) ≤ 1)%nat).
Proof.
  destruct (caps_enforced demo_config "data" demo_world 1) as [Hratings Htags].
  split; [apply Hratings; reflexivity | intros m; apply Htags; reflexivity].
Defined.

Lemma empty_file_reports_missing_columns_witness :
  let w := with_file ("data", "ratings.csv") [] demo_world in
  ensure_file_with_columns ("data", "ratings.csv") ratings_cols w
  = (Err (SysExit 1), printed (MsgMissingColumns "ratings.csv" ratings_cols []) w).
Proof.
  apply (empty_file_reports_missing_columns ("data", "ratings.csv") ratings_cols);
    [reflexivity | discriminate].
Defined.

Example empty_ratings_aborts_run :
  let w := with_file ("data", "ratings.csv") [] demo_world in
  main demo_config "data" w
  = (Err (SysExit 1),
     printed (MsgMissingColumns "ratings.csv" ratings_cols [])
       (printed (MsgWorkingDirectory "data") w)).
Proof. reflexivity. Qed.

(** ** Which rows count against a cap *)

Lemma int_at_getitem col row z :
  int_at col row = Some z ↔ getitem row col ≫= int_of = Returns z.
Proof.
  unfold int_at. destruct (getitem row col ≫= int_of); split; congruence.
Qed.







(** ** The early stop of the ratings filter *)



Lemma DictReader_cons hd recs : DictReader (hd :: recs) = readback hd recs.
Proof. done. Qed.






Example unsorted_ratings_cut :
  let r := build_filtered_ratings uncapped_config "data"
             (with_file ("data", "ratings.csv") unsorted_ratings demo_world) in
  r.1 = Ok tt ∧
  files r.2 !! ("data", "filtered_ratings.csv")
  = Some [ratings_cols; ["1"; "10"; "4.0"; "100"]].
Proof. split; reflexivity. Qed.

(** ** The identifier extractor *)

Lemma sorted_perm ids : sorted ids ≡ₚ elements ids.
Proof. apply merge_sort_Permutation. Qed.

Lemma sorted_elem_of ids x : x ∈ sorted ids ↔ x ∈ ids.
Proof. by rewrite sorted_perm, elem_of_elements. Qed.

Lemma sorted_NoDup ids : NoDup (sorted ids).
Proof. rewrite sorted_perm. apply NoDup_elements. Qed.

Lemma sorted_length ids : length (sorted ids) = size ids.
Proof. by rewrite sorted_perm. Qed.

Lemma sorted_StronglySorted ids : StronglySorted Z.le (sorted ids).
Proof. apply StronglySorted_merge_sort; apply _. Qed.

Lemma take_sorted_NoDup n ids : NoDup (take n (sorted ids)).
Proof. eapply sublist_NoDup; [apply sorted_NoDup | apply sublist_take]. Qed.

(** The first [n] of the sorted identifiers are the [n] lowest: each is
    below every identifier left out. *)
Lemma take_sorted_lowest n ids x y :
  x ∈ take n (sorted ids) → y ∈ ids → y ∉ take n (sorted ids) → x < y.
Proof.
  intros Hx Hy Hny.
  pose proof (sorted_StronglySorted ids) as Hs.
  pose proof (sorted_NoDup ids) as Hnd.
  apply sorted_elem_of in Hy.
  rewrite <- (take_drop n (sorted ids)) in Hs, Hnd, Hy.
  apply elem_of_app in Hy as [Hy | Hy]; [done|].
  pose proof (StronglySorted_app_1_elem_of _ _ _ _ _ Hs Hx Hy) as Hle.
  apply NoDup_app in Hnd as (_ & Hdisj & _).
  assert (x ≠ y) by (intros ->; by eapply Hdisj).
  lia.
Qed.

Lemma cap_movie_ids_size cfg n ids :
  MAX_MOVIES cfg = Some n → (size (cap_movie_ids cfg ids) ≤ n)%nat.
Proof.
  intros Hn. unfold cap_movie_ids. rewrite Hn.
  destruct (n <? size ids)%nat eqn:E.
  - rewrite size_list_to_set by apply take_sorted_NoDup.
    rewrite length_take. lia.
  - by apply Nat.ltb_ge in E.
Qed.

Lemma cap_movie_ids_lowest cfg n ids :
  MAX_MOVIES cfg = Some n → (n < size ids)%nat →
  cap_movie_ids cfg ids = list_to_set (take n (sorted ids)) ∧
  cap_movie_ids cfg ids ⊆ ids ∧
  size (cap_movie_ids cfg ids) = n ∧
  (∀ x y,
     x ∈ cap_movie_ids cfg ids → y ∈ ids → y ∉ cap_movie_ids cfg ids → x < y).
Proof.
  intros Hn Hlt. unfold cap_movie_ids. rewrite Hn.
  rewrite (proj2 (Nat.ltb_lt _ _) Hlt).
  split; [done|]. split; [|split].
  - intros x Hx%elem_of_list_to_set. apply sorted_elem_of.
    by eapply subseteq_take.
  - rewrite size_list_to_set by apply take_sorted_NoDup.
    rewrite length_take_le; [done|]. rewrite sorted_length. lia.
  - intros x y Hx%elem_of_list_to_set Hy Hny.
    rewrite elem_of_list_to_set in Hny. by eapply take_sorted_lowest.
Qed.

Lemma ids_body_has_ids st row :
  has_ids row →
  ∃ u m, int_at "userId" row = Some u ∧ int_at "movieId" row = Some m ∧
         ids_body st row = Continue ({[u]} ∪ st.1, {[m]} ∪ st.2).
Proof.
  intros [[u Hu] [m Hm]]. exists u, m. split; [done|]. split; [done|].
  apply int_at_getitem in Hu, Hm. unfold ids_body. by rewrite Hu, Hm.
Qed.

Lemma ids_body_continue st row st' :
  ids_body st row = Continue st' → has_ids row.
Proof.
  unfold ids_body, has_ids, int_at.
  destruct (getitem row "userId" ≫= int_of); [|done].
  destruct (getitem row "movieId" ≫= int_of); [|done]. eauto.
Qed.

Lemma ids_body_no_break st row st' : ids_body st row ≠ Break st'.
Proof.
  unfold ids_body.
  destruct (getitem row "userId" ≫= int_of); [|done].
  by destruct (getitem row "movieId" ≫= int_of).
Qed.

Lemma union_move (a b c : gset Z) : a ∪ b ∪ c = b ∪ (a ∪ c).
Proof. by rewrite (comm_L (∪) a b), (assoc_L (∪)). Qed.

Lemma ids_loop_has_ids rows st :
  Forall has_ids rows →
  for_each ids_body rows st
  = ((st.1 ∪ ids_at "userId" rows, st.2 ∪ ids_at "movieId" rows), None).
Proof.
  intros Hrows. revert st. induction Hrows as [|row rows Hrow _ IH]; intros st.
  - cbn. unfold ids_at. cbn. rewrite !(right_id_L ∅ (∪)). by destruct st.
  - destruct (ids_body_has_ids st row Hrow) as (u & m & Hu & Hm & Hb).
    cbn [for_each]. rewrite Hb, IH. unfold ids_at. cbn [omap list_omap fst snd].
    fold (omap (int_at "userId") rows). fold (omap (int_at "movieId") rows).
    rewrite Hu, Hm. cbn [list_to_set foldr] .
    f_equal. f_equal; apply union_move.
Qed.

Lemma ids_loop_completes rows st st' :
  for_each ids_body rows st = (st', None) → Forall has_ids rows.
Proof.
  revert st. induction rows as [|row rows IH]; intros st Hrun; [done|].
  cbn [for_each] in Hrun.
  destruct (ids_body st row) as [s|s|e s] eqn:Hb.
  - constructor; [by eapply ids_body_continue | by eapply IH].
  - by apply ids_body_no_break in Hb.
  - done.
Qed.

Lemma ensure_ok_inv (p : path) cols w u w' :
  ensure_file_with_columns p cols w = (Ok u, w') → w' = w ∧ validated p cols w.
Proof.
  intros H. assert (w' = w) as ->; [|split; [done | by destruct u]].
  revert H. rewrite ensure_file_with_columns_eq.
  destruct (files w !! p); [|done]. cbv zeta.
  case_bool_decide; congruence.
Qed.

Lemma rows_of_lookup w (p : path) f :
  files w !! p = Some f → rows_of w p = DictReader f.
Proof. intros H. unfold rows_of. by rewrite H. Qed.

Lemma load_ids_inv cfg base_dir w ids w' :
  load_ids_from_filtered_ratings cfg base_dir w = (Ok ids, w') →
  let rows := rows_of w (join base_dir "filtered_ratings.csv") in
  validated (join base_dir "filtered_ratings.csv") ratings_cols w ∧
  Forall has_ids rows ∧
  ids = (ids_at "userId" rows, cap_movie_ids cfg (ids_at "movieId" rows)).
Proof.
  unfold load_ids_from_filtered_ratings. cbv zeta.
  unfold mbind at 1, M_bind at 1.
  destruct (ensure_file_with_columns _ _ w) as [[u|fl] w1] eqn:Hens; [|done].
  apply ensure_ok_inv in Hens as [-> Hv].
  destruct (validated_inv _ _ _ Hv) as (f & Hf & _).
  rewrite (rows_of_lookup _ _ _ Hf).
  unfold mbind at 1, M_bind at 1, open_read. rewrite Hf.
  destruct (for_each _ _ _) as [st e] eqn:Hrun.
  destruct e as [e|]; [done|]. intros Hres.
  pose proof (ids_loop_completes _ _ _ Hrun) as Hrows.
  rewrite (ids_loop_has_ids _ _ Hrows) in Hrun. cbn [fst snd] in Hrun.
  rewrite !(left_id_L ∅ (∪)) in Hrun. injection Hrun as <-.
  split; [done|]. split; [done|].
  cbn in Hres. by injection Hres as <- _.
Qed.

Lemma load_ids_run cfg base_dir w :
  let rows := rows_of w (join base_dir "filtered_ratings.csv") in
  validated (join base_dir "filtered_ratings.csv") ratings_cols w →
  Forall has_ids rows →
  (load_ids_from_filtered_ratings cfg base_dir w).1
  = Ok (ids_at "userId" rows, cap_movie_ids cfg (ids_at "movieId" rows)).
Proof.
  intros rows Hv Hrows. subst rows.
  destruct (validated_inv _ _ _ Hv) as (f & Hf & _).
  rewrite (rows_of_lookup _ _ _ Hf) in *.
  unfold load_ids_from_filtered_ratings. cbv zeta.
  rewrite (validated_run _ _ f) by done.
  rewrite (ids_loop_has_ids _ _ Hrows). cbn [fst snd].
  by rewrite !(left_id_L ∅ (∪)).
Qed.

(** C4. When [MAX_MOVIES] is set, the movie set the extractor returns
    never has more members than the cap. *)
Theorem movie_set_within_cap
    (cfg : config) (base_dir : string) (w w' : world)
    (ids : gset Z * gset Z) (n : nat) :
  MAX_MOVIES cfg = Some n →
  load_ids_from_filtered_ratings cfg base_dir w = (Ok ids, w') →
  (size ids.2 ≤ n)%nat.
Proof.
  intros Hn (_ & _ & ->)%load_ids_inv. by apply cap_movie_ids_size.
Qed.

Lemma movie_set_within_cap_witness :
  ∃ ids w',
    load_ids_from_filtered_ratings demo_config "data" scenario_world = (Ok ids, w')
    ∧ (size ids.2 ≤ 2)%nat.
Proof.
  exists ({[1; 2]}, {[1; 3]}), (printed (MsgFound 2 2) scenario_world).
  split; [reflexivity|].
  apply (movie_set_within_cap demo_config "data" scenario_world
           (printed (MsgFound 2 2) scenario_world) ({[1; 2]}, {[1; 3]}) 2);
    reflexivity.
Defined.

(** C2. When [MAX_MOVIES] is set and more movies are found than it
    allows, the extractor returns the lowest [MAX_MOVIES] identifiers
    found: the first [MAX_MOVIES] of their ascending sort, that is a
    subset of that size each of whose members is below every identifier
    left out.  The result does not depend on the order of the rows: a
    permutation of the records gives the same sets.  For the movies
    5, 3, 9, 1 and a cap of 2 the result is {1, 3}. *)
Theorem movie_cap_keeps_lowest (cfg : config) (base_dir : string) :
  (∀ w w' ids n,
     MAX_MOVIES cfg = Some n →
     load_ids_from_filtered_ratings cfg base_dir w = (Ok ids, w') →
     let found := ids_at "movieId" (rows_of w (join base_dir "filtered_ratings.csv")) in
     (n < size found)%nat →
     ids.2 = list_to_set (take n (sorted found)) ∧
     ids.2 ⊆ found ∧
     size ids.2 = n ∧
     (∀ x y, x ∈ ids.2 → y ∈ found → y ∉ ids.2 → x < y)) ∧
  (∀ w1 w2 hd recs1 recs2 ids w1',
     files w1 !! join base_dir "filtered_ratings.csv" = Some (hd :: recs1) →
     files w2 !! join base_dir "filtered_ratings.csv" = Some (hd :: recs2) →
     recs1 ≡ₚ recs2 →
     load_ids_from_filtered_ratings cfg base_dir w1 = (Ok ids, w1') →
     (load_ids_from_filtered_ratings cfg base_dir w2).1 = Ok ids) ∧
  (MAX_MOVIES cfg = Some 2%nat →
   cap_movie_ids cfg {[5; 3; 9; 1]} = {[1; 3]} ∧
   (load_ids_from_filtered_ratings cfg "data" scenario_world).1
   = Ok ({[1; 2]}, {[1; 3]})).
Proof.
  split; [|split].
  - intros w w' ids n Hn (_ & _ & ->)%load_ids_inv found Hlt.
    by apply cap_movie_ids_lowest.
  - intros w1 w2 hd recs1 recs2 ids w1' Hf1 Hf2 Hperm (Hv & Hrows & ->)%load_ids_inv.
    destruct (validated_inv _ _ _ Hv) as (f & Hf & Hsub).
    rewrite Hf1 in Hf. injection Hf as <-.
    rewrite (rows_of_lookup _ _ _ Hf1) in *. rewrite DictReader_cons in *.
    assert (readback hd recs2 ≡ₚ readback hd recs1) as Hrb.
    { unfold readback. by rewrite Hperm. }
    rewrite load_ids_run.
    + rewrite (rows_of_lookup _ _ _ Hf2), DictReader_cons.
      unfold ids_at. by rewrite Hrb.
    + by eapply validated_intro.
    + rewrite (rows_of_lookup _ _ _ Hf2), DictReader_cons. by rewrite Hrb.
  - intros Hn. split.
    + unfold cap_movie_ids. rewrite Hn. reflexivity.
    + rewrite load_ids_run; [| reflexivity | by repeat constructor].
      unfold cap_movie_ids. rewrite Hn. reflexivity.
Qed.

Lemma movie_cap_keeps_lowest_witness :
  let found :=
    ids_at "movieId" (rows_of scenario_world ("data", "filtered_ratings.csv")) in
  let recs := [["1"; "5"; "4.0"; "100"]; ["1"; "3"; "3.5"; "101"];
               ["2"; "9"; "5.0"; "102"]; ["2"; "1"; "2.0"; "103"]] in
  let shuffled :=
    with_file ("data", "filtered_ratings.csv") (ratings_cols :: reverse recs)
      scenario_world in
  (∀ x y,
     x ∈ ({[1; 3]} : gset Z) → y ∈ found → y ∉ ({[1; 3]} : gset Z) → x < y) ∧
  (load_ids_from_filtered_ratings demo_config "data" shuffled).1
  = Ok ({[1; 2]}, {[1; 3]}) ∧
  cap_movie_ids demo_config {[5; 3; 9; 1]} = {[1; 3]}.
Proof.
  intros found recs shuffled.
  destruct (movie_cap_keeps_lowest demo_config "data") as (Hlow & Hperm & Hex).
  split; [|split].
  - destruct (Hlow scenario_world (printed (MsgFound 2 2) scenario_world)
                ({[1; 2]}, {[1; 3]}) 2%nat)
      as (_ & _ & _ & H); [reflexivity | reflexivity | vm_compute; lia | exact H].
  - apply (Hperm scenario_world shuffled ratings_cols recs (reverse recs)
             ({[1; 2]}, {[1; 3]}) (printed (MsgFound 2 2) scenario_world));
      [reflexivity | reflexivity | symmetry; apply reverse_Permutation | reflexivity].
  - apply Hex. reflexivity.
Defined.

(** ** Fatal errors *)

Lemma ensure_cases (p : path) cols w :
  ensure_file_with_columns p cols w = (Ok tt, w) ∨
  ∃ msg, ensure_file_with_columns p cols w = (Err (SysExit 1), printed msg w)
         ∧ diagnoses p cols w msg.
Proof.
  rewrite ensure_file_with_columns_eq. unfold diagnoses.
  destruct (files w !! p) as [f|]; cbv zeta.
  - case_bool_decide as Hm; [right | by left]. by eexists.
  - right. by eexists.
Qed.
























(** ** Cross-artifact consistency over a whole run *)

Lemma filter_stage_completes {S} (inp outp : path) cols
    (body : S → pydict → control S) (init : S) (proj : S → writer_state) w u w' :
  (ensure_file_with_columns inp cols;;
   f_in ← open_read inp;
   let '(st, e) := for_each body (DictReader f_in) init in
   finish outp cols (proj st) e) w = (Ok u, w') →
  validated inp cols w ∧ ∀ q : path, q ≠ outp → files w' !! q = files w !! q.
Proof.
  destruct (ensure_cases inp cols w) as [Hv | (msg & Hens & _)].
  - destruct (validated_inv _ _ _ Hv) as (f & Hf & _).
    rewrite (validated_run _ _ f) by done.
    destruct (for_each _ _ _) as [st e]. rewrite finish_eq. cbv zeta.
    destruct e as [e|]; [done|]. intros [= _ <-]. split; [done|].
    intros q Hq. cbn. by rewrite lookup_insert_ne.
  - unfold mbind at 1, M_bind at 1. by rewrite Hens.
Qed.

Lemma load_ids_files cfg base_dir w ids w' :
  load_ids_from_filtered_ratings cfg base_dir w = (Ok ids, w') →
  files w' = files w.
Proof.
  unfold load_ids_from_filtered_ratings. cbv zeta.
  destruct (ensure_cases (join base_dir "filtered_ratings.csv") ratings_cols w)
    as [Hv | (msg & Hens & _)].
  - destruct (validated_inv _ _ _ Hv) as (f & Hf & _).
    rewrite (validated_run _ _ f) by done.
    destruct (for_each _ _ _) as [st [e|]]; [done|]. by intros [= _ <-].
  - unfold mbind at 1, M_bind at 1. by rewrite Hens.
Qed.

Lemma rows_of_ext w w' (p : path) :
  files w' !! p = files w !! p → rows_of w' p = rows_of w p.
Proof. unfold rows_of. by intros ->. Qed.

Lemma main_completes cfg base_dir w w' :
  main cfg base_dir w = (Ok tt, w') →
  ∃ w1 ids w2 w3 w4 w5,
    build_filtered_ratings cfg base_dir
      (printed (MsgWorkingDirectory base_dir) w) = (Ok tt, w1) ∧
    load_ids_from_filtered_ratings cfg base_dir w1 = (Ok ids, w2) ∧
    build_links_filtered base_dir ids.2 w2 = (Ok tt, w3) ∧
    build_tags_filtered cfg base_dir ids.2 w3 = (Ok tt, w4) ∧
    build_movies_filtered cfg base_dir ids.2 w4 = (Ok tt, w5) ∧
    w' = printed MsgDone w5.
Proof.
  unfold main. unfold mbind at 1, M_bind at 1. cbn [print].
  fold (printed (MsgWorkingDirectory base_dir) w).
  unfold mbind at 1, M_bind at 1.
  destruct (build_filtered_ratings cfg base_dir _) as [[[]|f1] w1] eqn:E1; [|done].
  unfold mbind at 1, M_bind at 1.
  destruct (load_ids_from_filtered_ratings cfg base_dir w1)
    as [[ids|f2] w2] eqn:E2; [|done].
  cbv zeta. unfold mbind at 1, M_bind at 1.
  destruct (build_links_filtered base_dir ids.2 w2) as [[[]|f3] w3] eqn:E3; [|done].
  unfold mbind at 1, M_bind at 1.
  destruct (build_tags_filtered cfg base_dir ids.2 w3) as [[[]|f4] w4] eqn:E4; [|done].
  unfold mbind at 1, M_bind at 1.
  destruct (build_movies_filtered cfg base_dir ids.2 w4) as [[[]|f5] w5] eqn:E5; [|done].
  intros [= <-]. by exists w1, ids, w2, w3, w4, w5.
Qed.

Lemma main_outputs_within cfg base_dir w w' :
  main cfg base_dir w = (Ok tt, w') →
  let allowed :=
    cap_movie_ids cfg
      (ids_at "movieId" (rows_of w' (join base_dir "filtered_ratings.csv"))) in
  movie_ids_within allowed (rows_of w' (join base_dir "links_filtered.csv")) ∧
  movie_ids_within allowed (rows_of w' (join base_dir "tags_filtered.csv")) ∧
  movie_ids_within allowed (rows_of w' (join base_dir "movies_filtered.csv")).
Proof.
  intros (w1 & ids & w2 & w3 & w4 & w5 & H1 & H2 & H3 & H4 & H5 & ->)%main_completes.
  pose proof (load_ids_files _ _ _ _ _ H2) as F2.
  pose proof (load_ids_inv _ _ _ _ _ H2) as (_ & _ & Hids).
  pose proof (build_links_filtered_within base_dir ids.2 w2) as L3.
  pose proof (build_tags_filtered_within cfg base_dir ids.2 w3) as L4.
  pose proof (build_movies_filtered_within cfg base_dir ids.2 w4) as L5.
  rewrite H3 in L3. rewrite H4 in L4. rewrite H5 in L5.
  apply filter_stage_completes in H3 as [V3 F3].
  apply filter_stage_completes in H4 as [V4 F4].
  apply filter_stage_completes in H5 as [V5 F5].
  specialize (L3 V3). specialize (L4 V4). specialize (L5 V5). cbn [snd] in *.
  assert (∀ a b : string, a ≠ b → join base_dir a ≠ join base_dir b) as Hne
    by (intros a b Hab [=]; done).
  cbv zeta.
  rewrite (rows_of_ext w1 (printed MsgDone w5)); last first.
  { cbn. rewrite F5, F4, F3, F2 by (by apply Hne). done. }
  rewrite (rows_of_ext w3 (printed MsgDone w5)); last first.
  { cbn. rewrite F5, F4 by (by apply Hne). done. }
  rewrite (rows_of_ext w4 (printed MsgDone w5)); last first.
  { cbn. rewrite F5 by (by apply Hne). done. }
  rewrite (rows_of_ext w5 (printed MsgDone w5)) by done.
  rewrite Hids in L3, L4, L5. done.
Qed.

(** C1. Whatever the configuration and the input, once the source table
    has passed validation, every row of the filtered links, filtered tags
    and filtered movies output carries under [movieId] an integer that
    belongs to the allowed set the stage was given: this holds for what
    [build_links_filtered], [build_tags_filtered] and
    [build_movies_filtered] leave in their output file, whether the stage
    completes or is cut short by an exception.  After a complete run of
    [main] the three outputs are within the allowed set computed from the
    filtered ratings that the run left. *)
Theorem filtered_movie_ids_allowed
    (cfg : config) (base_dir : string) (movie_ids : gset Z) (w : world) :
  (validated (join base_dir "links.csv") links_cols w →
   movie_ids_within movie_ids
     (rows_of (build_links_filtered base_dir movie_ids w).2
        (join base_dir "links_filtered.csv"))) ∧
  (validated (join base_dir "tags.csv") tags_cols w →
   movie_ids_within movie_ids
     (rows_of (build_tags_filtered cfg base_dir movie_ids w).2
        (join base_dir "tags_filtered.csv"))) ∧
  (validated (join base_dir "movies.csv") movies_cols w →
   movie_ids_within movie_ids
     (rows_of (build_movies_filtered cfg base_dir movie_ids w).2
        (join base_dir "movies_filtered.csv"))) ∧
  (∀ w', main cfg base_dir w = (Ok tt, w') →
     let allowed :=
       cap_movie_ids cfg
         (ids_at "movieId" (rows_of w' (join base_dir "filtered_ratings.csv"))) in
     movie_ids_within allowed (rows_of w' (join base_dir "links_filtered.csv")) ∧
     movie_ids_within allowed (rows_of w' (join base_dir "tags_filtered.csv")) ∧
     movie_ids_within allowed (rows_of w' (join base_dir "movies_filtered.csv"))).
Proof.
  split; [apply build_links_filtered_within|].
  split; [apply build_tags_filtered_within|].
  split; [apply build_movies_filtered_within|].
  intros w'. apply main_outputs_within.
Qed.

Lemma filtered_movie_ids_allowed_witness :
  movie_ids_within {[10]}
    (rows_of (build_links_filtered "data" {[10]} demo_world).2
       (join "data" "links_filtered.csv")) ∧
  movie_ids_within {[10]}
    (rows_of (build_tags_filtered demo_config "data" {[10]} demo_world).2
       (join "data" "tags_filtered.csv")) ∧
  movie_ids_within {[10]}
    (rows_of (build_movies_filtered demo_config "data" {[10]} demo_world).2
       (join "data" "movies_filtered.csv")) ∧
  movie_ids_within {[10]}
    (rows_of (main demo_config "data" demo_world).2
       (join "data" "movies_filtered.csv")).
Proof.
  destruct (filtered_movie_ids_allowed demo_config "data" {[10]} demo_world)
    as (Hlinks & Htags & Hmovies & Hmain).
  split; [apply Hlinks; reflexivity|].
  split; [apply Htags; reflexivity|].
  split; [apply Hmovies; reflexivity|].
  apply (Hmain (main demo_config "data" demo_world).2). reflexivity.
Defined.

(** ** Sanity checks of [int] and [str] *)

Example py_int_plain : py_int "42" = Some 42.
Proof. reflexivity. Qed.
Example py_int_spaces_sign : py_int "  -1_000 " = Some (-1000).
Proof. reflexivity. Qed.
Example py_int_leading_zero : py_int "007" = Some 7.
Proof. reflexivity. Qed.
Example py_int_empty : py_int EmptyString = None.
Proof. reflexivity. Qed.
Example py_int_word : py_int "abc" = None.
Proof. reflexivity. Qed.
Example py_int_double_underscore : py_int "1__0" = None.
Proof. reflexivity. Qed.
Example py_int_inner_space : py_int "- 5" = None.
Proof. reflexivity. Qed.
Example py_str_neg : py_str (-305) = "-305".
Proof. reflexivity. Qed.
Example py_str_zero : py_str 0 = "0".
Proof. reflexivity. Qed.

(** * Further properties of the code *)

(** ** Rows of a validated source *)

Lemma fold_text_preserved kvs (d : gmap string cell) c s :
  d !! c = Some (PStr s) →
  ∃ s', foldl (λ d kv, <[kv.1 := PStr kv.2]> d) d kvs !! c = Some (PStr s').
Proof.
  revert d s. induction kvs as [|[k a] kvs IH]; intros d s Hd; cbn.
  - by exists s.
  - destruct (decide (k = c)) as [->|Hk].
    + apply (IH _ a). by rewrite lookup_insert_eq.
    + apply (IH _ s). by rewrite lookup_insert_ne.
Qed.

Lemma fold_text_lookup (hd r : list string) (d : gmap string cell) c :
  c ∈ take (length r) hd →
  ∃ s, foldl (λ d kv, <[kv.1 := PStr kv.2]> d) d (zip hd r) !! c = Some (PStr s).
Proof.
  revert r d. induction hd as [|k hd IH]; intros [|a r] d Hc; cbn in *;
    try by apply elem_of_nil in Hc.
  apply elem_of_cons in Hc as [->|Hc].
  - apply (fold_text_preserved _ _ _ a). by rewrite lookup_insert_eq.
  - by apply IH.
Qed.


Lemma fold_none_lookup (ks : list string) (d : gmap string cell) c :
  foldl (λ d k, <[k := PNone]> d) d ks !! c
  = if decide (c ∈ ks) then Some PNone else d !! c.
Proof.
  revert d. induction ks as [|k ks IH]; intros d.
  - destruct (decide (c ∈ [])) as [Hc|]; [by apply elem_of_nil in Hc | done].
  - cbn [foldl]. rewrite IH.
    destruct (decide (c ∈ ks)) as [Hc|Hc].
    + by rewrite decide_True by (by right).
    + destruct (decide (c = k)) as [->|Hk].
      * rewrite decide_True by (by left). by rewrite lookup_insert_eq.
      * rewrite decide_False by (by intros [?|?]%elem_of_cons).
        by rewrite lookup_insert_ne.
Qed.


Lemma DictReader_row_well_keyed hd r : well_keyed hd (DictReader_row hd r).
Proof.
  intros c Hc. unfold DictReader_row.
  destruct (length hd <? length r)%nat eqn:E1; cbn [items].
  - apply Nat.ltb_lt in E1.
    destruct (fold_text_lookup hd r ∅ c) as [s Hs];
      [rewrite take_ge by lia; done|]. by exists (PStr s).
  - apply Nat.ltb_ge in E1.
    destruct (length r <? length hd)%nat eqn:E2; cbn [items].
    + rewrite fold_none_lookup.
      destruct (decide (c ∈ drop (length r) hd)) as [Hd|Hd]; [by exists PNone|].
      rewrite <- (take_drop (length r) hd) in Hc.
      apply elem_of_app in Hc as [Hc|Hc]; [|done].
      destruct (fold_text_lookup hd r ∅ c Hc) as [s Hs]. by exists (PStr s).
    + apply Nat.ltb_ge in E2.
      destruct (fold_text_lookup hd r ∅ c) as [s Hs];
        [rewrite take_ge by lia; done|]. by exists (PStr s).
Qed.



Lemma DictReader_row_restkey_long hd r :
  (length hd < length r)%nat → restkey (DictReader_row hd r) ≠ None.
Proof.
  intros Hl. unfold DictReader_row. by rewrite (proj2 (Nat.ltb_lt _ _) Hl).
Qed.

Lemma well_keyed_mono cols cols' row :
  cols ⊆ cols' → well_keyed cols' row → well_keyed cols row.
Proof. intros Hsub H c Hc. by apply H, Hsub. Qed.

Lemma validated_rows_well_keyed (p : path) cols w f :
  validated p cols w → files w !! p = Some f →
  Forall (well_keyed cols) (DictReader f).
Proof.
  intros Hv Hf. destruct (validated_inv _ _ _ Hv) as (f' & Hf' & Hsub).
  rewrite Hf in Hf'. injection Hf' as <-.
  destruct f as [|hd recs]; [constructor|].
  cbn in Hsub. unfold DictReader. apply Forall_fmap, Forall_forall.
  intros r _. cbn. eapply well_keyed_mono; [done|].
  apply DictReader_row_well_keyed.
Qed.

Lemma well_keyed_getitem cols row c :
  well_keyed cols row → c ∈ cols →
  ∃ v, getitem row c = Returns v ∧ textual v ∧ render v = cell_text row c.
Proof.
  intros H Hc. destruct (H c Hc) as (v & Hv & Ht). exists v.
  unfold getitem, cell_text. by rewrite Hv.
Qed.

Lemma sanitize_textual cfg v :
  textual v →
  ∃ s, sanitize_ascii cfg v = Returns (PStr s) ∧ s = sanitize_text cfg (render v).
Proof.
  destruct v as [|t|z]; [| |done]; intros _.
  - exists EmptyString. split; [done|]. unfold sanitize_text.
    by destruct (ASCII_ONLY cfg).
  - eexists. split; [apply sanitize_ascii_str | done].
Qed.

Lemma fold_text_lookup_other (hd r : list string) (d : gmap string cell) c :
  c ∉ take (length r) hd →
  foldl (λ d kv, <[kv.1 := PStr kv.2]> d) d (zip hd r) !! c = d !! c.
Proof.
  revert r d. induction hd as [|k hd IH]; intros [|a r] d Hc; cbn in *; try done.
  apply not_elem_of_cons in Hc as [Hne Hc].
  rewrite IH by done. by rewrite lookup_insert_ne.
Qed.

Lemma fold_text_project (hd r : list string) (d : gmap string cell) :
  NoDup hd → length r = length hd →
  (λ c, match foldl (λ d kv, <[kv.1 := PStr kv.2]> d) d (zip hd r) !! c with
        | Some v => render v
        | None => EmptyString
        end) <$> hd = r.
Proof.
  intros Hnd. revert r d.
  induction Hnd as [|k hd Hk Hnd IH]; intros [|a r] d Hl; try done.
  cbn. f_equal.
  - rewrite fold_text_lookup_other.
    + by rewrite lookup_insert_eq.
    + intros Hin. apply Hk. by eapply subseteq_take.
  - apply IH. by injection Hl.
Qed.

(** Reading a record under a header without repeated names and printing
    the columns of the header gives the record back. *)
Lemma project_DictReader_row hd r :
  NoDup hd → length r = length hd → project hd (DictReader_row hd r) = r.
Proof.
  intros Hnd Hl. unfold DictReader_row. rewrite Hl, Nat.ltb_irrefl.
  unfold project, cell_text. cbn [items]. by apply fold_text_project.
Qed.

(** ** What one pass of a loop body does on a row of a validated source *)

Lemma int_at_raises row c :
  int_at c row = None → (∃ v, items row !! c = Some v ∧ textual v) →
  ∃ e, getitem row c ≫= int_of = Raises e ∧ int_error e.
Proof.
  unfold int_at, getitem. intros H (v & Hv & Ht). rewrite Hv in *. cbn in *.
  destruct v as [|s|z]; [by exists IntOfNone | | done].
  cbn in *. destruct (py_int s); [done|]. by exists (InvalidLiteral s).
Qed.

Lemma int_at_cases cols row c :
  well_keyed cols row → c ∈ cols →
  (∃ z, int_at c row = Some z ∧ getitem row c ≫= int_of = Returns z) ∨
  (∃ e, int_at c row = None ∧ getitem row c ≫= int_of = Raises e ∧ int_error e).
Proof.
  intros Hk Hc. destruct (int_at c row) as [z|] eqn:E.
  - left. exists z. split; [done|]. by apply int_at_getitem.
  - right. destruct (int_at_raises row c E (Hk c Hc)) as (e & He & Hi).
    by exists e.
Qed.

Lemma ratings_row_written row :
  well_keyed ratings_cols row →
  (u ← getitem row "userId";
   m ← getitem row "movieId";
   r ← getitem row "rating";
   t ← getitem row "timestamp";
   writerow ratings_cols
     (dict_literal [("userId", u); ("movieId", m);
                    ("rating", r); ("timestamp", t)]))
  = Returns (project ratings_cols row).
Proof.
  intros Hk. unfold project, ratings_cols. cbn [fmap list_fmap].
  destruct (well_keyed_getitem _ _ "userId" Hk) as (u & -> & _ & <-); [set_solver|].
  destruct (well_keyed_getitem _ _ "movieId" Hk) as (m & -> & _ & <-); [set_solver|].
  destruct (well_keyed_getitem _ _ "rating" Hk) as (r & -> & _ & <-); [set_solver|].
  destruct (well_keyed_getitem _ _ "timestamp" Hk) as (t & -> & _ & <-); [set_solver|].
  reflexivity.
Qed.

Lemma tags_row_written cfg row :
  well_keyed tags_cols row →
  (u ← getitem row "userId";
   m ← getitem row "movieId";
   g ← getitem row "tag" ≫= sanitize_ascii cfg;
   t ← getitem row "timestamp";
   writerow tags_cols
     (dict_literal [("userId", u); ("movieId", m);
                    ("tag", g); ("timestamp", t)]))
  = Returns (tags_record cfg row).
Proof.
  intros Hk. unfold tags_record.
  destruct (well_keyed_getitem _ _ "userId" Hk) as (u & -> & _ & <-); [set_solver|].
  destruct (well_keyed_getitem _ _ "movieId" Hk) as (m & -> & _ & <-); [set_solver|].
  destruct (well_keyed_getitem _ _ "tag" Hk) as (g & -> & Hg & <-); [set_solver|].
  destruct (well_keyed_getitem _ _ "timestamp" Hk) as (t & -> & _ & <-); [set_solver|].
  destruct (sanitize_textual cfg g Hg) as (s & Hs & ->).
  cbn [mbind outcome_bind]. rewrite Hs. reflexivity.
Qed.

Lemma movies_row_written cfg movie_id row :
  well_keyed movies_cols row →
  (t ← getitem row "title" ≫= sanitize_ascii cfg;
   g ← getitem row "genres" ≫= sanitize_ascii cfg;
   writerow movies_cols
     (dict_literal [("movieId", PInt movie_id); ("title", t); ("genres", g)]))
  = Returns (movies_record cfg movie_id row).
Proof.
  intros Hk. unfold movies_record.
  destruct (well_keyed_getitem _ _ "title" Hk) as (t & -> & Ht & <-); [set_solver|].
  destruct (well_keyed_getitem _ _ "genres" Hk) as (g & -> & Hg & <-); [set_solver|].
  destruct (sanitize_textual cfg t Ht) as (s1 & Hs1 & ->).
  destruct (sanitize_textual cfg g Hg) as (s2 & Hs2 & ->).
  cbn [mbind outcome_bind]. rewrite Hs1. cbn [mbind outcome_bind]. rewrite Hs2.
  reflexivity.
Qed.

Lemma writerow_reader_row cols row :
  writerow cols row
  = if bool_decide (dom (items row) ⊆ list_to_set cols)
       && bool_decide (restkey row = None)
    then Returns (project cols row) else Raises ExtraFields.
Proof.
  unfold writerow, project. destruct (_ && _); [|done]. f_equal.
  apply list_fmap_ext. intros _ c _. unfold cell_text.
  by destruct (items row !! c).
Qed.

Lemma ratings_body_step cfg st row u :
  well_keyed ratings_cols row → int_at "userId" row = Some u →
  ratings_body cfg st row =
  if MAX_USERS cfg <? u then Break st
  else if exceeds (MAX_RATINGS_PER_USER cfg) (increment u st).2
       then Continue (increment u st).1
       else Continue {| count := count (increment u st).1;
                        out := emit (project ratings_cols row) (out st) |}.
Proof.
  intros Hk Hu%int_at_getitem. unfold ratings_body. rewrite Hu.
  destruct (MAX_USERS cfg <? u); [done|]. cbn [increment fst snd].
  destruct (exceeds _ _); [done|]. by rewrite ratings_row_written.
Qed.

Lemma tags_body_step cfg ids st row m :
  well_keyed tags_cols row → int_at "movieId" row = Some m →
  tags_body cfg ids st row =
  if bool_decide (m ∉ ids) then Continue st
  else if exceeds (MAX_TAGS_PER_MOVIE cfg) (increment m st).2
       then Continue (increment m st).1
       else Continue {| count := count (increment m st).1;
                        out := emit (tags_record cfg row) (out st) |}.
Proof.
  intros Hk Hm%int_at_getitem. unfold tags_body. rewrite Hm.
  destruct (bool_decide _); [done|]. cbn [increment fst snd].
  destruct (exceeds _ _); [done|]. by rewrite tags_row_written.
Qed.

Lemma movies_body_step cfg ids o row m :
  well_keyed movies_cols row → int_at "movieId" row = Some m →
  movies_body cfg ids o row =
  if bool_decide (m ∈ ids) then Continue (emit (movies_record cfg m row) o)
  else Continue o.
Proof.
  intros Hk Hm%int_at_getitem. unfold movies_body. rewrite Hm.
  destruct (bool_decide _); [|done]. by rewrite movies_row_written.
Qed.

Lemma links_body_step ids o row m :
  int_at "movieId" row = Some m →
  links_body ids o row =
  if bool_decide (m ∈ ids) then
    if bool_decide (dom (items row) ⊆ list_to_set links_cols)
       && bool_decide (restkey row = None)
    then Continue (emit (project links_cols row) o)
    else Raise ExtraFields o
  else Continue o.
Proof.
  intros Hm%int_at_getitem. unfold links_body. rewrite Hm.
  destruct (bool_decide (m ∈ ids)); [|done]. rewrite writerow_reader_row.
  by destruct (_ && _).
Qed.

Lemma body_int_error {S} cols col (body : S → pydict → control S) st row :
  well_keyed cols row → col ∈ cols → int_at col row = None →
  (∀ e, getitem row col ≫= int_of = Raises e → body st row = Raise e st) →
  ∃ e, body st row = Raise e st ∧ int_error e.
Proof.
  intros Hk Hc Hn Hb.
  destruct (int_at_raises row col Hn (Hk col Hc)) as (e & He & Hi).
  exists e. split; [by apply Hb | done].
Qed.

(** ** A validated stage, as a function of its source *)

Lemma build_filtered_ratings_run cfg base_dir w f :
  validated (join base_dir "ratings.csv") ratings_cols w →
  files w !! join base_dir "ratings.csv" = Some f →
  build_filtered_ratings cfg base_dir w
  = finish (join base_dir "filtered_ratings.csv") ratings_cols
      (out (for_each (ratings_body cfg) (DictReader f) counting_init).1)
      (for_each (ratings_body cfg) (DictReader f) counting_init).2 w.
Proof.
  intros Hv Hf. unfold build_filtered_ratings. cbv zeta.
  rewrite (validated_run _ _ f) by done. by destruct (for_each _ _ _).
Qed.

Lemma build_links_filtered_run base_dir ids w f :
  validated (join base_dir "links.csv") links_cols w →
  files w !! join base_dir "links.csv" = Some f →
  build_links_filtered base_dir ids w
  = finish (join base_dir "links_filtered.csv") links_cols
      (for_each (links_body ids) (DictReader f) writer_init).1
      (for_each (links_body ids) (DictReader f) writer_init).2 w.
Proof.
  intros Hv Hf. unfold build_links_filtered. cbv zeta.
  rewrite (validated_run _ _ f) by done. by destruct (for_each _ _ _).
Qed.

Lemma build_tags_filtered_run cfg base_dir ids w f :
  validated (join base_dir "tags.csv") tags_cols w →
  files w !! join base_dir "tags.csv" = Some f →
  build_tags_filtered cfg base_dir ids w
  = finish (join base_dir "tags_filtered.csv") tags_cols
      (out (for_each (tags_body cfg ids) (DictReader f) counting_init).1)
      (for_each (tags_body cfg ids) (DictReader f) counting_init).2 w.
Proof.
  intros Hv Hf. unfold build_tags_filtered. cbv zeta.
  rewrite (validated_run _ _ f) by done. by destruct (for_each _ _ _).
Qed.

Lemma build_movies_filtered_run cfg base_dir ids w f :
  validated (join base_dir "movies.csv") movies_cols w →
  files w !! join base_dir "movies.csv" = Some f →
  build_movies_filtered cfg base_dir ids w
  = finish (join base_dir "movies_filtered.csv") movies_cols
      (for_each (movies_body cfg ids) (DictReader f) writer_init).1
      (for_each (movies_body cfg ids) (DictReader f) writer_init).2 w.
Proof.
  intros Hv Hf. unfold build_movies_filtered. cbv zeta.
  rewrite (validated_run _ _ f) by done. by destruct (for_each _ _ _).
Qed.

Lemma finish_file (p : path) header o e w :
  files (finish p header o e w).2 !! p = Some (header :: written o).
Proof. rewrite finish_eq. destruct e; cbn; apply lookup_insert_eq. Qed.


Lemma finish_stdout (p : path) header o e w :
  stdout (finish p header o e w).2
  = match e with
    | Some _ => stdout w
    | None => (stdout w ++ [MsgWrote (kept o) p.2])%list
    end.
Proof. rewrite finish_eq. by destruct e. Qed.

(** An invariant that need only be kept on the rows of the list. *)
Lemma for_each_invariant_on {S R} (I : S → Prop) (P : R → Prop)
    (body : S → R → control S) rows s :
  Forall P rows →
  (∀ s row, P row → I s → I (state_of (body s row))) →
  I s → I (for_each body rows s).1.
Proof.
  intros Hrows Hbody. revert s.
  induction Hrows as [|row rows Hrow _ IH]; intros s Hs; [done|].
  cbn. specialize (Hbody s row Hrow Hs).
  destruct (body s row); cbn in *; auto.
Qed.

(** A loop that only ever appends [g row] to what it has written writes
    a selection of the [g row], in the order of the rows. *)
Lemma for_each_selects {S R A} (wr : S → list A) (g : R → A) (P : R → Prop)
    (body : S → R → control S) rows s :
  Forall P rows →
  (∀ s row, P row →
     wr (state_of (body s row)) = wr s
     ∨ wr (state_of (body s row)) = (wr s ++ [g row])%list) →
  ∃ l, wr (for_each body rows s).1 = (wr s ++ l)%list
       ∧ l `sublist_of` (g <$> rows).
Proof.
  intros Hrows Hbody. revert s.
  induction Hrows as [|row rows Hrow _ IH]; intros s.
  - exists []. by rewrite (right_id_L [] (++)).
  - cbn [for_each fmap list_fmap]. specialize (Hbody s row Hrow).
    destruct (body s row) as [s'|s'|e s'] eqn:Hb; cbn [state_of fst] in *.
    + destruct (IH s') as (l & Hl & Hsub). rewrite Hl.
      destruct Hbody as [->| ->].
      * exists l. split; [done|]. by apply sublist_cons.
      * exists (g row :: l). split; [by rewrite <- (assoc_L (++))|].
        by apply sublist_skip.
    + destruct Hbody as [->| ->].
      * exists []. split; [by rewrite (right_id_L [] (++))|]. apply sublist_nil_l.
      * exists [g row]. split; [done|]. apply sublist_skip, sublist_nil_l.
    + destruct Hbody as [->| ->].
      * exists []. split; [by rewrite (right_id_L [] (++))|]. apply sublist_nil_l.
      * exists [g row]. split; [done|]. apply sublist_skip, sublist_nil_l.
Qed.

(** ** The validator, as a whole *)


(** ** What a run writes *)

Lemma same_outside_refl ps w : same_outside ps w w.
Proof. by intros q _. Qed.

Lemma same_outside_trans ps w1 w2 w3 :
  same_outside ps w1 w2 → same_outside ps w2 w3 → same_outside ps w1 w3.
Proof. intros H12 H23 q Hq. by rewrite (H23 q Hq), (H12 q Hq). Qed.

Lemma same_outside_files ps w w' : files w' = files w → same_outside ps w w'.
Proof. intros H q _. by rewrite H. Qed.

Lemma bind_same_outside {A B} ps (m : M A) (k : A → M B) :
  (∀ w, same_outside ps w (m w).2) →
  (∀ a w, same_outside ps w (k a w).2) →
  ∀ w, same_outside ps w ((m ≫= k) w).2.
Proof.
  intros Hm Hk w. unfold mbind, M_bind. specialize (Hm w).
  destruct (m w) as [[a|f] w1]; [|done].
  eapply same_outside_trans; [done | apply Hk].
Qed.

Lemma ensure_same_outside ps (p : path) cols w :
  same_outside ps w (ensure_file_with_columns p cols w).2.
Proof.
  apply same_outside_files.
  destruct (ensure_cases p cols w) as [-> | (msg & -> & _)]; done.
Qed.

Lemma finish_same_outside ps (p : path) header o e w :
  p ∈ ps → same_outside ps w (finish p header o e w).2.
Proof.
  intros Hp q Hq. rewrite finish_eq. cbv zeta.
  assert (p ≠ q) by (by intros ->).
  destruct e; cbn; by rewrite lookup_insert_ne.
Qed.

Lemma filter_stage_same_outside {S} ps (inp outp : path) cols
    (body : S → pydict → control S) (init : S) (proj : S → writer_state) w :
  outp ∈ ps →
  same_outside ps w
    ((ensure_file_with_columns inp cols;;
      f_in ← open_read inp;
      let '(st, e) := for_each body (DictReader f_in) init in
      finish outp cols (proj st) e) w).2.
Proof.
  intros Hout. revert w. apply bind_same_outside.
  - intros w. apply ensure_same_outside.
  - intros _. apply bind_same_outside.
    + intros w. apply same_outside_files. unfold open_read.
      by destruct (files w !! inp).
    + intros f w. destruct (for_each _ _ _). by apply finish_same_outside.
Qed.

Lemma load_ids_same_outside ps cfg base_dir w :
  same_outside ps w (load_ids_from_filtered_ratings cfg base_dir w).2.
Proof.
  revert w. unfold load_ids_from_filtered_ratings. cbv zeta.
  apply bind_same_outside.
  - intros w. apply ensure_same_outside.
  - intros _. apply bind_same_outside.
    + intros w. apply same_outside_files. unfold open_read.
      by destruct (files w !! _).
    + intros f w. by destruct (for_each _ _ _) as [st [e|]].
Qed.

Lemma main_same_outside cfg base_dir w :
  same_outside (output_paths base_dir) w (main cfg base_dir w).2.
Proof.
  revert w. unfold main.
  apply bind_same_outside; [intros w; by apply same_outside_files|]. intros _.
  apply bind_same_outside.
  { intros w. apply (filter_stage_same_outside _ _ _ _ _ _ out).
    unfold output_paths. set_solver. }
  intros _. apply bind_same_outside; [intros w; apply load_ids_same_outside|].
  intros ids. cbv zeta.
  apply bind_same_outside.
  { intros w. apply (filter_stage_same_outside _ _ _ _ _ _ id).
    unfold output_paths. set_solver. }
  intros _. apply bind_same_outside.
  { intros w. apply (filter_stage_same_outside _ _ _ _ _ _ out).
    unfold output_paths. set_solver. }
  intros _. apply bind_same_outside.
  { intros w. apply (filter_stage_same_outside _ _ _ _ _ _ id).
    unfold output_paths. set_solver. }
  intros _ w. by apply same_outside_files.
Qed.

(** X2. However a run ends, it changes no file other than its four
    outputs: the four source tables, and every other file, are left as
    they were.  The same holds of each stage for its own output, and the
    extractor writes nothing. *)
Theorem run_writes_only_outputs (cfg : config) (base_dir : string) (w : world) :
  same_outside (output_paths base_dir) w (main cfg base_dir w).2 ∧
  same_outside [join base_dir "filtered_ratings.csv"] w
    (build_filtered_ratings cfg base_dir w).2 ∧
  files (load_ids_from_filtered_ratings cfg base_dir w).2 = files w ∧
  (∀ ids,
     same_outside [join base_dir "links_filtered.csv"] w
       (build_links_filtered base_dir ids w).2 ∧
     same_outside [join base_dir "tags_filtered.csv"] w
       (build_tags_filtered cfg base_dir ids w).2 ∧
     same_outside [join base_dir "movies_filtered.csv"] w
       (build_movies_filtered cfg base_dir ids w).2).
Proof.
  split; [apply main_same_outside|].
  split; [apply (filter_stage_same_outside _ _ _ _ _ _ out); set_solver|].
  split.
  - apply map_eq. intros q.
    apply (load_ids_same_outside [] cfg base_dir w q), not_elem_of_nil.
  - intros ids.
    split; [apply (filter_stage_same_outside _ _ _ _ _ _ id); set_solver|].
    split; [apply (filter_stage_same_outside _ _ _ _ _ _ out); set_solver|].
    apply (filter_stage_same_outside _ _ _ _ _ _ id); set_solver.
Qed.

(** ** The count a filter reports *)

Lemma filter_stage_reports {S} (inp outp : path) cols
    (body : S → pydict → control S) (init : S) (proj : S → writer_state)
    w u w' :
  (∀ st row,
     kept (proj st) = length (written (proj st)) →
     kept (proj (state_of (body st row)))
     = length (written (proj (state_of (body st row))))) →
  kept (proj init) = length (written (proj init)) →
  (ensure_file_with_columns inp cols;;
   f_in ← open_read inp;
   let '(st, e) := for_each body (DictReader f_in) init in
   finish outp cols (proj st) e) w = (Ok u, w') →
  ∃ recs, files w' !! outp = Some (cols :: recs)
          ∧ stdout w' = (stdout w ++ [MsgWrote (length recs) outp.2])%list.
Proof.
  intros Hbody Hinit.
  destruct (ensure_cases inp cols w) as [Hv | (msg & Hens & _)].
  - destruct (validated_inv _ _ _ Hv) as (f & Hf & _).
    rewrite (validated_run _ _ f) by done.
    pose proof (for_each_invariant
                  (λ st, kept (proj st) = length (written (proj st)))
                  body (DictReader f) init Hbody Hinit) as Hk.
    destruct (for_each _ _ _) as [st e]. cbn [fst] in Hk. rewrite finish_eq.
    destruct e as [e|]; [done|]. intros [= _ <-].
    exists (written (proj st)). cbn. rewrite lookup_insert_eq. by rewrite Hk.
  - unfold mbind at 1, M_bind at 1. by rewrite Hens.
Qed.

Lemma emit_kept rec o :
  kept o = length (written o) → kept (emit rec o) = length (written (emit rec o)).
Proof. intros H. cbn. rewrite length_app, H. cbn. lia. Qed.

Lemma ratings_body_kept cfg st row :
  kept (out st) = length (written (out st)) →
  kept (out (state_of (ratings_body cfg st row)))
  = length (written (out (state_of (ratings_body cfg st row)))).
Proof.
  intros H. unfold ratings_body.
  destruct (getitem row "userId" ≫= int_of); [|done].
  destruct (_ <? _); [done|]. unfold increment.
  destruct (exceeds _ _); [done|].
  match goal with
  | |- context [match ?X with Returns _ => _ | Raises _ => _ end] =>
      destruct X; [by apply emit_kept | done]
  end.
Qed.

Lemma tags_body_kept cfg ids st row :
  kept (out st) = length (written (out st)) →
  kept (out (state_of (tags_body cfg ids st row)))
  = length (written (out (state_of (tags_body cfg ids st row)))).
Proof.
  intros H. unfold tags_body.
  destruct (getitem row "movieId" ≫= int_of); [|done].
  destruct (bool_decide _); [done|]. unfold increment.
  destruct (exceeds _ _); [done|].
  match goal with
  | |- context [match ?X with Returns _ => _ | Raises _ => _ end] =>
      destruct X; [by apply emit_kept | done]
  end.
Qed.

Lemma links_body_kept ids o row :
  kept o = length (written o) →
  kept (state_of (links_body ids o row))
  = length (written (state_of (links_body ids o row))).
Proof.
  intros H. unfold links_body.
  destruct (getitem row "movieId" ≫= int_of); [|done].
  destruct (bool_decide _); [|done].
  destruct (writerow _ _); [by apply emit_kept | done].
Qed.

Lemma movies_body_kept cfg ids o row :
  kept o = length (written o) →
  kept (state_of (movies_body cfg ids o row))
  = length (written (state_of (movies_body cfg ids o row))).
Proof.
  intros H. unfold movies_body.
  destruct (getitem row "movieId" ≫= int_of); [|done].
  destruct (bool_decide _); [|done].
  match goal with
  | |- context [match ?X with Returns _ => _ | Raises _ => _ end] =>
      destruct X; [by apply emit_kept | done]
  end.
Qed.

(** X3. A filter that completes leaves an output file made of the
    required header followed by the records it wrote, and the number it
    prints in its last line is the number of those records. *)
Theorem reported_count_is_rows_written
    (cfg : config) (base_dir : string) (ids : gset Z) (w w' : world) :
  (build_filtered_ratings cfg base_dir w = (Ok tt, w') →
   ∃ recs, files w' !! join base_dir "filtered_ratings.csv"
           = Some (ratings_cols :: recs)
           ∧ stdout w' = (stdout w ++ [MsgWrote (length recs) "filtered_ratings.csv"])%list) ∧
  (build_links_filtered base_dir ids w = (Ok tt, w') →
   ∃ recs, files w' !! join base_dir "links_filtered.csv"
           = Some (links_cols :: recs)
           ∧ stdout w' = (stdout w ++ [MsgWrote (length recs) "links_filtered.csv"])%list) ∧
  (build_tags_filtered cfg base_dir ids w = (Ok tt, w') →
   ∃ recs, files w' !! join base_dir "tags_filtered.csv"
           = Some (tags_cols :: recs)
           ∧ stdout w' = (stdout w ++ [MsgWrote (length recs) "tags_filtered.csv"])%list) ∧
  (build_movies_filtered cfg base_dir ids w = (Ok tt, w') →
   ∃ recs, files w' !! join base_dir "movies_filtered.csv"
           = Some (movies_cols :: recs)
           ∧ stdout w' = (stdout w ++ [MsgWrote (length recs) "movies_filtered.csv"])%list).
Proof.
  split; [|split; [|split]]; intros H.
  - apply (filter_stage_reports (join base_dir "ratings.csv")
             (join base_dir "filtered_ratings.csv") ratings_cols
             (ratings_body cfg) counting_init out w tt w');
      [apply ratings_body_kept | done | exact H].
  - apply (filter_stage_reports (join base_dir "links.csv")
             (join base_dir "links_filtered.csv") links_cols
             (links_body ids) writer_init id w tt w');
      [apply links_body_kept | done | exact H].
  - apply (filter_stage_reports (join base_dir "tags.csv")
             (join base_dir "tags_filtered.csv") tags_cols
             (tags_body cfg ids) counting_init out w tt w');
      [apply tags_body_kept | done | exact H].
  - apply (filter_stage_reports (join base_dir "movies.csv")
             (join base_dir "movies_filtered.csv") movies_cols
             (movies_body cfg ids) writer_init id w tt w');
      [apply movies_body_kept | done | exact H].
Qed.

Lemma reported_count_is_rows_written_witness :
  ∃ recs,
    files (build_tags_filtered demo_config "data" {[10; 20]} demo_world).2
      !! join "data" "tags_filtered.csv" = Some (tags_cols :: recs)
    ∧ stdout (build_tags_filtered demo_config "data" {[10; 20]} demo_world).2
      = [MsgWrote (length recs) "tags_filtered.csv"].
Proof.
  destruct (reported_count_is_rows_written demo_config "data" {[10; 20]} demo_world
              (build_tags_filtered demo_config "data" {[10; 20]} demo_world).2)
    as (_ & _ & Htags & _).
  apply Htags. reflexivity.
Defined.

(** ** The filtered ratings *)

Lemma int_at_project cols row c z :
  c ∈ cols → int_at c row = Some z →
  int_at c (DictReader_row cols (project cols row)) = Some z.
Proof.
  intros Hc Hz. apply int_at_getitem, getitem_int_inv in Hz as (v & Hv & Hz).
  unfold int_at, getitem, project. rewrite DictReader_row_fmap by done.
  unfold cell_text. rewrite Hv. cbn [mbind outcome_bind].
  by rewrite (int_of_render _ _ Hz).
Qed.

Lemma ratings_body_cases cfg st row :
  well_keyed ratings_cols row →
  (∃ e, ratings_body cfg st row = Raise e st ∧ int_error e) ∨
  (∃ u, int_at "userId" row = Some u ∧ MAX_USERS cfg < u
        ∧ ratings_body cfg st row = Break st) ∨
  (∃ u, int_at "userId" row = Some u ∧ u ≤ MAX_USERS cfg
        ∧ ratings_body cfg st row = Continue (increment u st).1) ∨
  (∃ u, int_at "userId" row = Some u ∧ u ≤ MAX_USERS cfg
        ∧ ratings_body cfg st row
          = Continue {| count := count (increment u st).1;
                        out := emit (project ratings_cols row) (out st) |}).
Proof.
  intros Hk.
  destruct (int_at_cases _ _ "userId" Hk) as [(u & Hu & _) | (e & _ & He & Hi)];
    [set_solver | |].
  - rewrite (ratings_body_step _ _ _ u Hk Hu).
    destruct (MAX_USERS cfg <? u) eqn:E.
    + apply Z.ltb_lt in E. right. left. by exists u.
    + apply Z.ltb_ge in E. right. right.
      destruct (exceeds _ _); [left | right]; by exists u.
  - left. exists e. split; [|done]. unfold ratings_body. by rewrite He.
Qed.

Lemma ratings_body_within_cutoff cfg st row :
  well_keyed ratings_cols row →
  Forall (λ rec, ∃ u, int_at "userId" (DictReader_row ratings_cols rec) = Some u
                      ∧ u ≤ MAX_USERS cfg) (written (out st)) →
  Forall (λ rec, ∃ u, int_at "userId" (DictReader_row ratings_cols rec) = Some u
                      ∧ u ≤ MAX_USERS cfg)
    (written (out (state_of (ratings_body cfg st row)))).
Proof.
  intros Hk H.
  destruct (ratings_body_cases cfg st row Hk)
    as [(e & -> & _) | [(u & _ & _ & ->) | [(u & _ & _ & ->) | (u & Hu & Hle & ->)]]];
    try done.
  cbn. apply Forall_app. split; [done|]. apply Forall_singleton.
  exists u. split; [|done].
  apply (int_at_project ratings_cols row "userId" u); [set_solver | done].
Qed.

(** X4. Every row of the filtered ratings has a [userId] that reads as an
    integer at most [MAX_USERS], whether the filter completed or was cut
    short. *)
Theorem filtered_ratings_within_cutoff
    (cfg : config) (base_dir : string) (w : world) :
  validated (join base_dir "ratings.csv") ratings_cols w →
  Forall (λ row, ∃ u, int_at "userId" row = Some u ∧ u ≤ MAX_USERS cfg)
    (rows_of (build_filtered_ratings cfg base_dir w).2
       (join base_dir "filtered_ratings.csv")).
Proof.
  intros Hv. destruct (validated_inv _ _ _ Hv) as (f & Hf & _).
  rewrite (build_filtered_ratings_run _ _ _ f) by done.
  rewrite rows_of_finish. apply Forall_fmap.
  apply Forall_forall. intros rec [_ Hin]%list_elem_of_filter. revert rec Hin.
  apply Forall_forall.
  apply (for_each_invariant_on
           (λ st, Forall (λ rec, ∃ u, int_at "userId" (DictReader_row ratings_cols rec) = Some u
                                      ∧ u ≤ MAX_USERS cfg) (written (out st)))
           (well_keyed ratings_cols));
    [by eapply validated_rows_well_keyed
    | intros; by apply ratings_body_within_cutoff | constructor].
Qed.

Lemma filtered_ratings_within_cutoff_witness :
  Forall (λ row, ∃ u, int_at "userId" row = Some u ∧ u ≤ 1)
    (rows_of (build_filtered_ratings demo_config "data" demo_world).2
       (join "data" "filtered_ratings.csv")).
Proof.
  apply (filtered_ratings_within_cutoff demo_config "data" demo_world).
  reflexivity.
Defined.

Lemma ratings_body_selects cfg st row :
  well_keyed ratings_cols row →
  written (out (state_of (ratings_body cfg st row))) = written (out st)
  ∨ written (out (state_of (ratings_body cfg st row)))
    = (written (out st) ++ [project ratings_cols row])%list.
Proof.
  intros Hk.
  destruct (ratings_body_cases cfg st row Hk)
    as [(e & -> & _) | [(u & _ & _ & ->) | [(u & _ & _ & ->) | (u & _ & _ & ->)]]];
    by auto.
Qed.

Lemma links_body_selects ids o row :
  written (state_of (links_body ids o row)) = written o
  ∨ written (state_of (links_body ids o row))
    = (written o ++ [project links_cols row])%list.
Proof.
  unfold links_body.
  destruct (getitem row "movieId" ≫= int_of); [|by left].
  destruct (bool_decide _); [|by left].
  rewrite writerow_reader_row. destruct (_ && _); [by right | by left].
Qed.

Lemma project_canonical cols (rs : csv) :
  NoDup cols → cols ≠ [] → Forall (λ r, length r = length cols) rs →
  project cols <$> DictReader (cols :: rs) = rs.
Proof.
  intros Hnd Hne Hrs. cbn [DictReader].
  induction Hrs as [|r rs Hr _ IH]; [done|].
  rewrite filter_cons, decide_True by (destruct r, cols; done).
  rewrite !fmap_cons. by rewrite project_DictReader_row, IH.
Qed.

Lemma ratings_cols_NoDup : NoDup ratings_cols.
Proof. compute_done. Qed.

Lemma links_cols_NoDup : NoDup links_cols.
Proof. compute_done. Qed.

(** X5. The filtered ratings and the filtered links hold rows of their
    source, unchanged and in source order: the records written are a
    selection, in order, of the required columns of the source rows.
    When the header of the source is the required columns and every
    record has a cell for each, the records written are a selection, in
    order, of the records of the source. *)
Theorem ratings_and_links_verbatim
    (cfg : config) (base_dir : string) (ids : gset Z) (w : world) (f : csv) :
  (validated (join base_dir "ratings.csv") ratings_cols w →
   files w !! join base_dir "ratings.csv" = Some f →
   ∃ recs,
     files (build_filtered_ratings cfg base_dir w).2
       !! join base_dir "filtered_ratings.csv" = Some (ratings_cols :: recs)
     ∧ recs `sublist_of` (project ratings_cols <$> DictReader f)
     ∧ (∀ rs, f = ratings_cols :: rs →
              Forall (λ r, length r = 4%nat) rs → recs `sublist_of` rs)) ∧
  (validated (join base_dir "links.csv") links_cols w →
   files w !! join base_dir "links.csv" = Some f →
   ∃ recs,
     files (build_links_filtered base_dir ids w).2
       !! join base_dir "links_filtered.csv" = Some (links_cols :: recs)
     ∧ recs `sublist_of` (project links_cols <$> DictReader f)
     ∧ (∀ rs, f = links_cols :: rs →
              Forall (λ r, length r = 3%nat) rs → recs `sublist_of` rs)).
Proof.
  split; intros Hv Hf.
  - rewrite (build_filtered_ratings_run _ _ _ f) by done. rewrite finish_file.
    destruct (for_each_selects (λ st, written (out st)) (project ratings_cols)
                (well_keyed ratings_cols) (ratings_body cfg) (DictReader f)
                counting_init) as (l & Hl & Hsub);
      [by eapply validated_rows_well_keyed
      | intros; by apply ratings_body_selects |].
    cbn in Hl. exists l. rewrite Hl. split; [done|]. split; [done|].
    intros rs -> Hrs.
    by rewrite project_canonical in Hsub by (done || apply ratings_cols_NoDup).
  - rewrite (build_links_filtered_run _ _ _ f) by done. rewrite finish_file.
    destruct (for_each_selects written (project links_cols)
                (λ _, True) (links_body ids) (DictReader f)
                writer_init) as (l & Hl & Hsub);
      [by apply Forall_true | intros; by apply links_body_selects |].
    cbn in Hl. exists l. rewrite Hl. split; [done|]. split; [done|].
    intros rs -> Hrs.
    by rewrite project_canonical in Hsub by (done || apply links_cols_NoDup).
Qed.

Lemma ratings_and_links_verbatim_witness :
  ∃ recs,
    files (build_filtered_ratings uncapped_config "data"
             (with_file ("data", "ratings.csv") unsorted_ratings demo_world)).2
      !! join "data" "filtered_ratings.csv" = Some (ratings_cols :: recs)
    ∧ recs `sublist_of` [["1"; "10"; "4.0"; "100"]; ["7"; "10"; "5.0"; "102"];
                         ["1"; "20"; "3.5"; "101"]].
Proof.
  destruct (ratings_and_links_verbatim uncapped_config "data" ∅
              (with_file ("data", "ratings.csv") unsorted_ratings demo_world)
              unsorted_ratings) as [Hratings _].
  destruct Hratings as (recs & Hfile & _ & Hsub); [reflexivity | reflexivity |].
  exists recs. split; [exact Hfile|].
  apply (Hsub _ eq_refl). repeat constructor.
Defined.




(** ** How many rows a cap lets through *)














(** ** The filters that keep no count *)










(** ** What the bodies of the other filters do, by cases *)

Lemma tags_body_cases cfg ids st row :
  well_keyed tags_cols row →
  (∃ e, tags_body cfg ids st row = Raise e st ∧ int_error e) ∨
  (∃ st', tags_body cfg ids st row = Continue st'
          ∧ (written (out st') = written (out st)
             ∨ written (out st') = (written (out st) ++ [tags_record cfg row])%list)).
Proof.
  intros Hk.
  destruct (int_at_cases _ _ "movieId" Hk) as [(m & Hm & _) | (e & _ & He & Hi)];
    [compute_done | |].
  - right. rewrite (tags_body_step _ _ _ _ m Hk Hm).
    case_bool_decide; [by eauto|].
    destruct (exceeds _ _); eexists; (split; [done|]); [by left | by right].
  - left. exists e. split; [|done]. unfold tags_body. by rewrite He.
Qed.

Lemma movies_body_cases cfg ids o row :
  well_keyed movies_cols row →
  (∃ e, movies_body cfg ids o row = Raise e o ∧ int_error e) ∨
  movies_body cfg ids o row = Continue o ∨
  (∃ m, int_at "movieId" row = Some m ∧ m ∈ ids
        ∧ movies_body cfg ids o row = Continue (emit (movies_record cfg m row) o)).
Proof.
  intros Hk.
  destruct (int_at_cases _ _ "movieId" Hk) as [(m & Hm & _) | (e & _ & He & Hi)];
    [compute_done | |].
  - right. rewrite (movies_body_step _ _ _ _ m Hk Hm).
    case_bool_decide; [right; by exists m | by left].
  - left. exists e. split; [|done]. unfold movies_body. by rewrite He.
Qed.

Lemma links_body_cases ids o row :
  well_keyed links_cols row →
  (∃ e, links_body ids o row = Raise e o ∧ (int_error e ∨ e = ExtraFields)) ∨
  links_body ids o row = Continue o ∨
  links_body ids o row = Continue (emit (project links_cols row) o).
Proof.
  intros Hk.
  destruct (int_at_cases _ _ "movieId" Hk) as [(m & Hm & _) | (e & _ & He & Hi)];
    [compute_done | |].
  - rewrite (links_body_step _ _ _ m Hm).
    case_bool_decide; [|by auto].
    destruct (_ && _); [by auto|]. left. exists ExtraFields. by auto.
  - left. exists e. split; [|by left]. unfold links_body. by rewrite He.
Qed.

Lemma tags_body_selects cfg ids st row :
  well_keyed tags_cols row →
  written (out (state_of (tags_body cfg ids st row))) = written (out st)
  ∨ written (out (state_of (tags_body cfg ids st row)))
    = (written (out st) ++ [tags_record cfg row])%list.
Proof.
  intros Hk.
  destruct (tags_body_cases cfg ids st row Hk) as [(e & -> & _) | (st' & -> & H)];
    [by left | done].
Qed.

(** ** What [sanitize_ascii] leaves of a text *)

Lemma filter_all_id {A} (P : A → Prop) `{!∀ x, Decision (P x)} (l : list A) :
  Forall P l → filter P l = l.
Proof.
  induction 1 as [|x l Hx _ IH]; [done|].
  by rewrite filter_cons, decide_True, IH.
Qed.

Lemma all_ascii_Forall s :
  all_ascii s ↔ Forall (λ b, is_ascii b = true) (list_byte_of_string s).
Proof.
  unfold all_ascii. rewrite <- Is_true_true, forallb_True.
  apply Forall_proper; [|done]. intros b. apply Is_true_true.
Qed.

Lemma all_ascii_subsequence s : all_ascii (ascii_subsequence s).
Proof.
  unfold all_ascii, ascii_subsequence.
  rewrite list_byte_of_string_of_list_byte. apply filter_ascii_all.
Qed.

Lemma ascii_subsequence_fixed s : ascii_subsequence s = s ↔ all_ascii s.
Proof.
  split.
  - intros <-. apply all_ascii_subsequence.
  - intros H%all_ascii_Forall. unfold ascii_subsequence.
    rewrite filter_all_id by done. apply string_of_list_byte_of_string.
Qed.

Lemma all_ascii_sanitize_text cfg s :
  ASCII_ONLY cfg = true → all_ascii (sanitize_text cfg s).
Proof. unfold sanitize_text. intros ->. apply all_ascii_subsequence. Qed.

Lemma sanitize_text_fixed cfg s :
  ASCII_ONLY cfg = false ∨ all_ascii s → sanitize_text cfg s = s.
Proof.
  unfold sanitize_text. intros [-> | H]; [done|].
  destruct (ASCII_ONLY cfg); [by apply ascii_subsequence_fixed | done].
Qed.

(** X11. [sanitize_ascii] only ever drops bytes: what it returns for a
    text is a text whose bytes are a selection, in order, of the bytes
    given.  With [ASCII_ONLY] on, the text returned is ASCII; and a text
    comes back unchanged exactly when [ASCII_ONLY] is off or the text is
    ASCII already. *)
Theorem sanitize_ascii_only_drops (cfg : config) (s : string) :
  (∃ t, sanitize_ascii cfg (PStr s) = Returns (PStr t)
        ∧ list_byte_of_string t `sublist_of` list_byte_of_string s
        ∧ (ASCII_ONLY cfg = true → all_ascii t)) ∧
  (sanitize_ascii cfg (PStr s) = Returns (PStr s)
   ↔ ASCII_ONLY cfg = false ∨ all_ascii s).
Proof.
  rewrite sanitize_ascii_str. split.
  - eexists. split; [done|]. split.
    + destruct (ASCII_ONLY cfg); [|done]. unfold ascii_subsequence.
      rewrite list_byte_of_string_of_list_byte. apply sublist_filter.
    + intros ->. apply all_ascii_subsequence.
  - split.
    + intros [= H]. destruct (ASCII_ONLY cfg); [|by left].
      right. by apply ascii_subsequence_fixed.
    + intros H. do 2 f_equal. by apply (sanitize_text_fixed cfg s).
Qed.

(** ** The filters that sanitise *)

(** X12. Of a tag row the filter changes the tag alone: the records it
    writes are a selection, in source order, of the source rows with
    [userId], [movieId] and [timestamp] as they were and the tag as
    [sanitize_ascii] leaves it.  When [ASCII_ONLY] is off, or every tag
    of the source is ASCII, the records written are rows of the source
    unchanged. *)
Theorem tags_filter_changes_only_the_tag
    (cfg : config) (base_dir : string) (ids : gset Z) (w : world) (f : csv) :
  validated (join base_dir "tags.csv") tags_cols w →
  files w !! join base_dir "tags.csv" = Some f →
  ∃ recs,
    files (build_tags_filtered cfg base_dir ids w).2
      !! join base_dir "tags_filtered.csv" = Some (tags_cols :: recs)
    ∧ recs `sublist_of`
        ((λ row, [cell_text row "userId"; cell_text row "movieId";
                  sanitize_text cfg (cell_text row "tag");
                  cell_text row "timestamp"]) <$> DictReader f)
    ∧ (ASCII_ONLY cfg = false
       ∨ Forall (λ row, all_ascii (cell_text row "tag")) (DictReader f) →
       recs `sublist_of` (project tags_cols <$> DictReader f)).
Proof.
  intros Hv Hf.
  rewrite (build_tags_filtered_run _ _ _ _ f) by done. rewrite finish_file.
  destruct (for_each_selects (λ st, written (out st)) (tags_record cfg)
              (well_keyed tags_cols) (tags_body cfg ids) (DictReader f)
              counting_init) as (l & Hl & Hsub);
    [by eapply validated_rows_well_keyed
    | intros; by apply tags_body_selects |].
  cbn in Hl. exists l. rewrite Hl. split; [done|]. split; [done|].
  intros Hascii.
  replace (project tags_cols <$> DictReader f)
    with (tags_record cfg <$> DictReader f); [done|].
  apply Forall_fmap_ext. destruct Hascii as [Hoff | Hall].
  - apply Forall_forall. intros row _. unfold tags_record, project.
    cbn [fmap list_fmap tags_cols]. by rewrite sanitize_text_fixed by by left.
  - apply (Forall_impl _ _ _ Hall). intros row Hrow. unfold tags_record, project.
    cbn [fmap list_fmap tags_cols]. by rewrite sanitize_text_fixed by by right.
Qed.

Lemma tags_filter_changes_only_the_tag_witness :
  ∃ recs,
    files (build_tags_filtered demo_config "data" {[10; 20]} demo_world).2
      !! join "data" "tags_filtered.csv" = Some (tags_cols :: recs)
    ∧ recs `sublist_of`
        [["1"; "10"; "caf"; "100"]; ["1"; "10"; "pixar"; "101"];
         ["1"; "20"; "good"; "102"]].
Proof.
  destruct (tags_filter_changes_only_the_tag demo_config "data" {[10; 20]} demo_world
              (default [] (files demo_world !! join "data" "tags.csv")))
    as (recs & Hfile & Hsub & _).
  - reflexivity.
  - reflexivity.
  - exists recs. split; [exact Hfile | exact Hsub].
Defined.

(** X13. With [ASCII_ONLY] on, the tag of every record of the filtered
    tags and the title and the genres of every record of the filtered
    metadata are ASCII, whether the filter completed or was cut short. *)
Theorem sanitised_cells_are_ascii
    (cfg : config) (base_dir : string) (ids : gset Z) (w : world) :
  ASCII_ONLY cfg = true →
  (validated (join base_dir "tags.csv") tags_cols w →
   ∃ recs,
     files (build_tags_filtered cfg base_dir ids w).2
       !! join base_dir "tags_filtered.csv" = Some (tags_cols :: recs)
     ∧ Forall (λ rec, ∃ u m g t, rec = [u; m; g; t] ∧ all_ascii g) recs) ∧
  (validated (join base_dir "movies.csv") movies_cols w →
   ∃ recs,
     files (build_movies_filtered cfg base_dir ids w).2
       !! join base_dir "movies_filtered.csv" = Some (movies_cols :: recs)
     ∧ Forall (λ rec, ∃ i t g, rec = [i; t; g] ∧ all_ascii t ∧ all_ascii g) recs).
Proof.
  intros Hon. split; intros Hv.
  - destruct (validated_inv _ _ _ Hv) as (f & Hf & _).
    rewrite (build_tags_filtered_run _ _ _ _ f) by done. rewrite finish_file.
    eexists. split; [done|].
    apply (for_each_invariant_on
             (λ st, Forall (λ rec, ∃ u m g t, rec = [u; m; g; t] ∧ all_ascii g)
                      (written (out st)))
             (well_keyed tags_cols));
      [by eapply validated_rows_well_keyed | | constructor].
    intros st row Hk HI.
    destruct (tags_body_selects cfg ids st row Hk) as [-> | ->]; [done|].
    apply Forall_app. split; [done|]. constructor; [|done].
    do 4 eexists. split; [done|]. by apply all_ascii_sanitize_text.
  - destruct (validated_inv _ _ _ Hv) as (f & Hf & _).
    rewrite (build_movies_filtered_run _ _ _ _ f) by done. rewrite finish_file.
    eexists. split; [done|].
    apply (for_each_invariant_on
             (λ o, Forall (λ rec, ∃ i t g, rec = [i; t; g] ∧ all_ascii t ∧ all_ascii g)
                     (written o))
             (well_keyed movies_cols));
      [by eapply validated_rows_well_keyed | | constructor].
    intros o row Hk HI.
    destruct (movies_body_cases cfg ids o row Hk)
      as [(e & -> & _) | [-> | (m & _ & _ & ->)]]; [done | done |].
    apply Forall_app. split; [done|]. constructor; [|done].
    do 3 eexists. split; [done|]. split; by apply all_ascii_sanitize_text.
Qed.

Lemma sanitised_cells_are_ascii_witness :
  ∃ recs,
    files (build_tags_filtered demo_config "data" {[10; 20]} demo_world).2
      !! join "data" "tags_filtered.csv" = Some (tags_cols :: recs)
    ∧ Forall (λ rec, ∃ u m g t, rec = [u; m; g; t] ∧ all_ascii g) recs.
Proof.
  destruct (sanitised_cells_are_ascii demo_config "data" {[10; 20]} demo_world)
    as [Htags _]; [reflexivity|].
  apply Htags. reflexivity.
Defined.

(** ** The extractor, as a whole *)

Lemma ids_body_cases st row :
  well_keyed ratings_cols row →
  has_ids row ∨ ∃ e st', ids_body st row = Raise e st' ∧ int_error e.
Proof.
  intros Hk.
  destruct (int_at_cases _ _ "userId" Hk) as [(u & Hu & Hgu) | (e & _ & He & Hi)];
    [compute_done | |].
  - destruct (int_at_cases _ _ "movieId" Hk) as [(m & Hm & _) | (e & _ & He & Hi)];
      [compute_done | |].
    + left. split; by eexists.
    + right. exists e. eexists. split; [|done]. unfold ids_body. by rewrite Hgu, He.
  - right. exists e, st. split; [|done]. unfold ids_body. by rewrite He.
Qed.

Lemma ids_loop_cases rows st :
  Forall (well_keyed ratings_cols) rows →
  Forall has_ids rows
  ∨ (¬ Forall has_ids rows
     ∧ ∃ e st', for_each ids_body rows st = (st', Some e) ∧ int_error e).
Proof.
  intros Hrows. revert st.
  induction Hrows as [|row rows Hrow _ IH]; intros st; [by left|].
  destruct (ids_body_cases st row Hrow) as [Hids | (e & st' & Hb & Hi)].
  - destruct (ids_body_has_ids st row Hids) as (u & m & _ & _ & Hb).
    destruct (IH ({[u]} ∪ st.1, {[m]} ∪ st.2)) as [Hall | (Hn & e & st' & Hrun & Hi)].
    + left. by constructor.
    + right. split; [by intros [_ ?]%Forall_cons|].
      exists e, st'. cbn [for_each]. by rewrite Hb.
  - right. split.
    + intros [Hids _]%Forall_cons.
      destruct (ids_body_has_ids st row Hids) as (u & m & _ & _ & Hb').
      by rewrite Hb' in Hb.
    + exists e, st'. cbn [for_each]. by rewrite Hb.
Qed.

Lemma cap_movie_ids_subseteq cfg ids : cap_movie_ids cfg ids ⊆ ids.
Proof.
  unfold cap_movie_ids. destruct (MAX_MOVIES cfg) as [n|]; [|done].
  destruct (n <? size ids)%nat; [|done].
  intros x Hx%elem_of_list_to_set. apply sorted_elem_of.
  by eapply elem_of_sublist; [|apply sublist_take].
Qed.

Lemma cap_movie_ids_within cfg ids :
  exceeds (MAX_MOVIES cfg) (size ids) = false → cap_movie_ids cfg ids = ids.
Proof.
  unfold cap_movie_ids, exceeds. destruct (MAX_MOVIES cfg) as [n|]; [|done].
  by intros ->.
Qed.

Lemma elem_of_ids_at col rows z :
  z ∈ ids_at col rows ↔ ∃ row, row ∈ rows ∧ int_at col row = Some z.
Proof. unfold ids_at. by rewrite elem_of_list_to_set, list_elem_of_omap. Qed.

Lemma extractor_cases (cfg : config) (base_dir : string) (w : world) :
  validated (join base_dir "filtered_ratings.csv") ratings_cols w →
  let rows := rows_of w (join base_dir "filtered_ratings.csv") in
  let users := ids_at "userId" rows in
  let found := ids_at "movieId" rows in
  (Forall has_ids rows
   ∧ load_ids_from_filtered_ratings cfg base_dir w
     = (Ok (users, cap_movie_ids cfg found),
        printed (MsgFound (size users) (size (cap_movie_ids cfg found))) w)
   ∧ cap_movie_ids cfg found ⊆ found
   ∧ (exceeds (MAX_MOVIES cfg) (size found) = false →
      cap_movie_ids cfg found = found))
  ∨ (¬ Forall has_ids rows
     ∧ ∃ e, load_ids_from_filtered_ratings cfg base_dir w = (Err (Uncaught e), w)
            ∧ int_error e).
Proof.
  intros Hv rows users found. subst rows users found.
  destruct (validated_inv _ _ _ Hv) as (f & Hf & _).
  rewrite (rows_of_lookup _ _ _ Hf).
  unfold load_ids_from_filtered_ratings. cbv zeta.
  rewrite (validated_run _ _ f) by done.
  destruct (ids_loop_cases (DictReader f) (∅, ∅))
    as [Hall | (Hn & e & st' & Hrun & Hi)];
    [by eapply validated_rows_well_keyed | |].
  - left. split; [done|].
    rewrite (ids_loop_has_ids _ _ Hall). cbn [fst snd].
    rewrite !(left_id_L ∅ (∪)).
    split; [done|]. split; [apply cap_movie_ids_subseteq | apply cap_movie_ids_within].
  - right. split; [done|]. exists e. by rewrite Hrun.
Qed.






(** ** How a run can fail *)











Lemma validated_ext (p : path) cols w w' :
  files w' !! p = files w !! p → validated p cols w → validated p cols w'.
Proof.
  intros Hfiles Hv. destruct (validated_inv _ _ _ Hv) as (f & Hf & Hsub).
  apply (validated_intro p cols f); [by rewrite Hfiles | done].
Qed.



Lemma ratings_output_validated cfg base_dir w w1 :
  build_filtered_ratings cfg base_dir w = (Ok tt, w1) →
  validated (join base_dir "filtered_ratings.csv") ratings_cols w1.
Proof.
  intros Hrun.
  destruct (filter_stage_reports (join base_dir "ratings.csv")
              (join base_dir "filtered_ratings.csv") ratings_cols
              (ratings_body cfg) counting_init out w tt w1)
    as (recs & Hout & _); [apply ratings_body_kept | done | exact Hrun |].
  by apply (validated_intro _ _ _ _ Hout).
Qed.

Lemma main_eq cfg base_dir w :
  main cfg base_dir w =
  match build_filtered_ratings cfg base_dir
          (printed (MsgWorkingDirectory base_dir) w) with
  | (Err f, w') => (Err f, w')
  | (Ok _, w1) =>
      match load_ids_from_filtered_ratings cfg base_dir w1 with
      | (Err f, w') => (Err f, w')
      | (Ok ids, w2) =>
          match build_links_filtered base_dir ids.2 w2 with
          | (Err f, w') => (Err f, w')
          | (Ok _, w3) =>
              match build_tags_filtered cfg base_dir ids.2 w3 with
              | (Err f, w') => (Err f, w')
              | (Ok _, w4) =>
                  match build_movies_filtered cfg base_dir ids.2 w4 with
                  | (Err f, w') => (Err f, w')
                  | (Ok _, w5) => (Ok tt, printed MsgDone w5)
                  end
              end
          end
      end
  end.
Proof.
  unfold main. unfold mbind at 1, M_bind at 1. cbn [print].
  fold (printed (MsgWorkingDirectory base_dir) w).
  unfold mbind at 1, M_bind at 1.
  destruct (build_filtered_ratings cfg base_dir _) as [[[]|f1] w1]; [|done].
  unfold mbind at 1, M_bind at 1.
  destruct (load_ids_from_filtered_ratings cfg base_dir w1) as [[ids|f2] w2]; [|done].
  cbv zeta. unfold mbind at 1, M_bind at 1.
  destruct (build_links_filtered base_dir ids.2 w2) as [[[]|f3] w3]; [|done].
  unfold mbind at 1, M_bind at 1.
  destruct (build_tags_filtered cfg base_dir ids.2 w3) as [[[]|f4] w4]; [|done].
  unfold mbind at 1, M_bind at 1.
  by destruct (build_movies_filtered cfg base_dir ids.2 w4) as [[[]|f5] w5].
Qed.

Lemma sources_kept base_dir w w' (name : string) :
  same_outside (output_paths base_dir) w w' →
  name ∈ ["ratings.csv"; "links.csv"; "tags.csv"; "movies.csv"] →
  files w' !! join base_dir name = files w !! join base_dir name.
Proof.
  intros Hso Hin. apply Hso. unfold output_paths, join. intros Hp.
  repeat (apply elem_of_cons in Hin as [-> | Hin]);
    try (by apply elem_of_nil in Hin);
    repeat (apply elem_of_cons in Hp as [[=] | Hp]); by apply elem_of_nil in Hp.
Qed.













(** ** What a run that completes prints *)

(** X18. A run that completes has printed seven lines, in this order:
    the working directory, the count of the filtered ratings, the sizes
    of the two sets of identifiers, the counts of the filtered links,
    tags and metadata, and the closing line.  Each count is the number of
    records the file of that name holds when the run is over, and the
    sizes are those of the users of the filtered ratings and of their
    movies after the cap. *)
Theorem completed_run_transcript
    (cfg : config) (base_dir : string) (w w' : world) :
  main cfg base_dir w = (Ok tt, w') →
  ∃ rr rl rt rm,
    files w' !! join base_dir "filtered_ratings.csv" = Some (ratings_cols :: rr) ∧
    files w' !! join base_dir "links_filtered.csv" = Some (links_cols :: rl) ∧
    files w' !! join base_dir "tags_filtered.csv" = Some (tags_cols :: rt) ∧
    files w' !! join base_dir "movies_filtered.csv" = Some (movies_cols :: rm) ∧
    let rows := rows_of w' (join base_dir "filtered_ratings.csv") in
    stdout w'
    = (stdout w ++
       [MsgWorkingDirectory base_dir;
        MsgWrote (length rr) "filtered_ratings.csv";
        MsgFound (size (ids_at "userId" rows))
          (size (cap_movie_ids cfg (ids_at "movieId" rows)));
        MsgWrote (length rl) "links_filtered.csv";
        MsgWrote (length rt) "tags_filtered.csv";
        MsgWrote (length rm) "movies_filtered.csv";
        MsgDone])%list.
Proof.
  intros (w1 & ids & w2 & w3 & w4 & w5 & E1 & E2 & E3 & E4 & E5 & ->)%main_completes.
  destruct (filter_stage_reports (join base_dir "ratings.csv")
              (join base_dir "filtered_ratings.csv") ratings_cols
              (ratings_body cfg) counting_init out
              (printed (MsgWorkingDirectory base_dir) w) tt w1)
    as (rr & Hrr & Hs1); [apply ratings_body_kept | done | exact E1 |].
  destruct (filter_stage_reports (join base_dir "links.csv")
              (join base_dir "links_filtered.csv") links_cols
              (links_body ids.2) writer_init id w2 tt w3)
    as (rl & Hrl & Hs3); [apply links_body_kept | done | exact E3 |].
  destruct (filter_stage_reports (join base_dir "tags.csv")
              (join base_dir "tags_filtered.csv") tags_cols
              (tags_body cfg ids.2) counting_init out w3 tt w4)
    as (rt & Hrt & Hs4); [apply tags_body_kept | done | exact E4 |].
  destruct (filter_stage_reports (join base_dir "movies.csv")
              (join base_dir "movies_filtered.csv") movies_cols
              (movies_body cfg ids.2) writer_init id w4 tt w5)
    as (rm & Hrm & Hs5); [apply movies_body_kept | done | exact E5 |].
  destruct (filter_stage_completes _ _ _ _ _ _ _ _ _ E3) as [_ Hk3].
  destruct (filter_stage_completes _ _ _ _ _ _ _ _ _ E4) as [_ Hk4].
  destruct (filter_stage_completes _ _ _ _ _ _ _ _ _ E5) as [_ Hk5].
  pose proof (load_ids_files _ _ _ _ _ E2) as Hk2.
  pose proof (ratings_output_validated _ _ _ _ E1) as Hv1.
  destruct (extractor_cases cfg base_dir w1 Hv1)
    as [(_ & Hload & _) | (_ & e & Hload & _)]; rewrite Hload in E2; [|done].
  injection E2 as <- <-.
  assert (files w5 !! join base_dir "filtered_ratings.csv"
          = Some (ratings_cols :: rr)) as Hrr5.
  { rewrite Hk5, Hk4, Hk3 by (by intros [=]). by rewrite Hk2. }
  exists rr, rl, rt, rm.
  split; [done|].
  split; [cbn [printed files]; by rewrite Hk5, Hk4 by (by intros [=])|].
  split; [cbn [printed files]; by rewrite Hk5 by (by intros [=])|].
  split; [done|]. cbv zeta.
  assert (rows_of (printed MsgDone w5) (join base_dir "filtered_ratings.csv")
          = rows_of w1 (join base_dir "filtered_ratings.csv")) as ->.
  { unfold rows_of. cbn [printed files]. by rewrite Hrr5, Hrr. }
  cbn [printed stdout]. rewrite Hs5, Hs4, Hs3. cbn [printed stdout].
  rewrite Hs1. cbn [printed stdout]. by rewrite <- !app_assoc.
Qed.

Lemma completed_run_transcript_witness :
  ∃ rr rl rt rm,
    files (main demo_config "data" demo_world).2
      !! join "data" "filtered_ratings.csv" = Some (ratings_cols :: rr) ∧
    files (main demo_config "data" demo_world).2
      !! join "data" "links_filtered.csv" = Some (links_cols :: rl) ∧
    files (main demo_config "data" demo_world).2
      !! join "data" "tags_filtered.csv" = Some (tags_cols :: rt) ∧
    files (main demo_config "data" demo_world).2
      !! join "data" "movies_filtered.csv" = Some (movies_cols :: rm) ∧
    stdout (main demo_config "data" demo_world).2
    = [MsgWorkingDirectory "data";
       MsgWrote (length rr) "filtered_ratings.csv";
       MsgFound 1 1;
       MsgWrote (length rl) "links_filtered.csv";
       MsgWrote (length rt) "tags_filtered.csv";
       MsgWrote (length rm) "movies_filtered.csv";
       MsgDone].
Proof.
  destruct (completed_run_transcript demo_config "data" demo_world
              (main demo_config "data" demo_world).2)
    as (rr & rl & rt & rm & Hrr & Hrl & Hrt & Hrm & Hout); [reflexivity|].
  exists rr, rl, rt, rm.
  split; [exact Hrr|]. split; [exact Hrl|]. split; [exact Hrt|].
  split; [exact Hrm|]. exact Hout.
Defined.

(** ** A run as a function of its sources *)

Lemma in_step_start w v : in_step [] w v w v.
Proof. split; [by intros q ?%elem_of_nil | done]. Qed.

Lemma in_step_files ps w v w1 v1 w2 v2 :
  in_step ps w v w1 v1 → files w2 = files w1 → files v2 = files v1 →
  in_step ps w v w2 v2.
Proof. intros [Hin Hout] Hw Hv. split; intros q Hq; rewrite Hw, Hv; auto. Qed.

Lemma in_step_insert ps w v w1 v1 w2 v2 (o : path) f :
  in_step ps w v w1 v1 →
  files w2 = <[o := f]> (files w1) → files v2 = <[o := f]> (files v1) →
  in_step (o :: ps) w v w2 v2.
Proof.
  intros [Hin Hout] Hw Hv. split; intros q Hq; rewrite Hw, Hv.
  - destruct (decide (q = o)) as [-> | Hne]; [by rewrite !lookup_insert_eq|].
    rewrite !lookup_insert_ne by done. apply Hin.
    by apply elem_of_cons in Hq as [? | ?].
  - apply not_elem_of_cons in Hq as [Hne Hq].
    rewrite !lookup_insert_ne by done. by apply Hout.
Qed.

Lemma in_step_lookup ps w v w1 v1 (p : path) :
  in_step ps w v w1 v1 → files w !! p = files v !! p →
  files w1 !! p = files v1 !! p.
Proof.
  intros [Hin Hout] Hp. destruct (decide (p ∈ ps)) as [Hi | Hi]; [by apply Hin|].
  destruct (Hout p Hi) as [-> ->]. done.
Qed.

Lemma ensure_fails_run {A} (p : path) cols (k : unit → M A) w fl w' :
  ensure_file_with_columns p cols w = (Err fl, w') →
  (ensure_file_with_columns p cols ≫= k) w = (Err fl, w').
Proof. intros H. unfold mbind, M_bind. by rewrite H. Qed.

Lemma filter_stage_agree {S} (inp outp : path) cols
    (body : S → pydict → control S) (init : S) (proj : S → writer_state) w v :
  files w !! inp = files v !! inp →
  ∃ r w' v',
    (ensure_file_with_columns inp cols;;
     f_in ← open_read inp;
     let '(st, e) := for_each body (DictReader f_in) init in
     finish outp cols (proj st) e) w = (r, w') ∧
    (ensure_file_with_columns inp cols;;
     f_in ← open_read inp;
     let '(st, e) := for_each body (DictReader f_in) init in
     finish outp cols (proj st) e) v = (r, v') ∧
    ((r = Err (SysExit 1) ∧ files w' = files w ∧ files v' = files v)
     ∨ ∃ f, files w' = <[outp := f]> (files w)
            ∧ files v' = <[outp := f]> (files v)).
Proof.
  intros Hinp.
  destruct (ensure_cases inp cols w) as [Hw | (mw & Hw & _)];
    destruct (ensure_cases inp cols v) as [Hv | (mv & Hv & _)].
  - destruct (validated_inv _ _ _ Hw) as (f & Hf & _).
    assert (files v !! inp = Some f) as Hf' by by rewrite <- Hinp.
    rewrite (validated_run _ _ f _ w), (validated_run _ _ f _ v) by done.
    destruct (for_each _ _ _) as [st e]. rewrite !finish_eq. cbv zeta.
    destruct e as [e|]; do 3 eexists; (split; [done|]); (split; [done|]);
      right; by eexists.
  - pose proof (validated_ext inp cols w v (eq_sym Hinp) Hw) as Hv'.
    unfold validated in Hv'. by rewrite Hv in Hv'.
  - pose proof (validated_ext inp cols v w Hinp Hv) as Hw'.
    unfold validated in Hw'. by rewrite Hw in Hw'.
  - rewrite (ensure_fails_run _ _ _ w _ _ Hw), (ensure_fails_run _ _ _ v _ _ Hv).
    do 3 eexists. split; [done|]. split; [done|]. by left.
Qed.

Lemma extractor_agree cfg base_dir w v :
  files w !! join base_dir "filtered_ratings.csv"
  = files v !! join base_dir "filtered_ratings.csv" →
  ∃ r w' v',
    load_ids_from_filtered_ratings cfg base_dir w = (r, w') ∧
    load_ids_from_filtered_ratings cfg base_dir v = (r, v') ∧
    files w' = files w ∧ files v' = files v.
Proof.
  intros Hinp. unfold load_ids_from_filtered_ratings. cbv zeta.
  destruct (ensure_cases (join base_dir "filtered_ratings.csv") ratings_cols w)
    as [Hw | (mw & Hw & _)];
    destruct (ensure_cases (join base_dir "filtered_ratings.csv") ratings_cols v)
      as [Hv | (mv & Hv & _)].
  - destruct (validated_inv _ _ _ Hw) as (f & Hf & _).
    assert (files v !! join base_dir "filtered_ratings.csv" = Some f) as Hf'
      by by rewrite <- Hinp.
    rewrite (validated_run _ _ f _ w), (validated_run _ _ f _ v) by done.
    destruct (for_each _ _ _) as [st [e|]]; by do 3 eexists.
  - pose proof (validated_ext _ ratings_cols w v (eq_sym Hinp) Hw) as Hv'.
    unfold validated in Hv'. by rewrite Hv in Hv'.
  - pose proof (validated_ext _ ratings_cols v w Hinp Hv) as Hw'.
    unfold validated in Hw'. by rewrite Hw in Hw'.
  - rewrite (ensure_fails_run _ _ _ w _ _ Hw), (ensure_fails_run _ _ _ v _ _ Hv).
    by do 3 eexists.
Qed.

Ltac among_paths :=
  let q := fresh "q" in
  let Hq := fresh "Hq" in
  intros q Hq; unfold output_paths in *;
  repeat (apply elem_of_cons in Hq as [-> | Hq]);
  try (by apply elem_of_nil in Hq);
  repeat first [apply list_elem_of_here | apply list_elem_of_further].

Lemma main_agree cfg base_dir w v :
  same_sources base_dir w v →
  (main cfg base_dir w).1 = (main cfg base_dir v).1 ∧
  ∃ ps, ps ⊆ output_paths base_dir
        ∧ ((main cfg base_dir w).1 = Ok tt → output_paths base_dir ⊆ ps)
        ∧ in_step ps w v (main cfg base_dir w).2 (main cfg base_dir v).2.
Proof.
  intros Hsrc. rewrite !main_eq.
  assert (in_step [] w v (printed (MsgWorkingDirectory base_dir) w)
            (printed (MsgWorkingDirectory base_dir) v)) as H0
    by (by apply (in_step_files [] w v w v); [apply in_step_start | |]).
  destruct (filter_stage_agree (join base_dir "ratings.csv")
              (join base_dir "filtered_ratings.csv") ratings_cols
              (ratings_body cfg) counting_init out
              (printed (MsgWorkingDirectory base_dir) w)
              (printed (MsgWorkingDirectory base_dir) v))
    as (r & w1 & v1 & Ew & Ev & Hf).
  { apply (in_step_lookup [] w v); [done | apply Hsrc; compute_done]. }
  change (build_filtered_ratings cfg base_dir
            (printed (MsgWorkingDirectory base_dir) w) = (r, w1)) in Ew.
  change (build_filtered_ratings cfg base_dir
            (printed (MsgWorkingDirectory base_dir) v) = (r, v1)) in Ev.
  rewrite Ew, Ev. clear Ew Ev. destruct r as [[]|fl].
  2: { cbn [fst snd]. split; [done|].
       destruct Hf as [(_ & Hw & Hv) | (f & Hw & Hv)].
       - exists []. split; [among_paths|]. split; [done|]. exact (in_step_files _ _ _ _ _ _ _ H0 Hw Hv).
       - eexists; split; [|split; [|exact (in_step_insert _ _ _ _ _ _ _ _ _ H0 Hw Hv)]]; [among_paths | done]. }
  destruct Hf as [(? & _) | (f & Hw & Hv)]; [done|].
  pose proof (in_step_insert _ _ _ _ _ _ _ _ _ H0 Hw Hv) as H1. clear H0 Hw Hv f.
  destruct (extractor_agree cfg base_dir w1 v1) as (r & w2 & v2 & Ew & Ev & Hw & Hv).
  { apply (proj1 H1), list_elem_of_here. }
  rewrite Ew, Ev. clear Ew Ev.
  pose proof (in_step_files _ _ _ _ _ _ _ H1 Hw Hv) as H2. clear H1 Hw Hv.
  destruct r as [ids|fl].
  2: { cbn [fst snd]. split; [done|].
       eexists; split; [|split; [|exact H2]]; [among_paths | done]. }
  destruct (filter_stage_agree (join base_dir "links.csv")
              (join base_dir "links_filtered.csv") links_cols
              (links_body ids.2) writer_init id w2 v2)
    as (r & w3 & v3 & Ew & Ev & Hf).
  { apply (in_step_lookup _ w v _ _ _ H2), Hsrc. compute_done. }
  change (build_links_filtered base_dir ids.2 w2 = (r, w3)) in Ew.
  change (build_links_filtered base_dir ids.2 v2 = (r, v3)) in Ev.
  rewrite Ew, Ev. clear Ew Ev. destruct r as [[]|fl].
  2: { cbn [fst snd]. split; [done|].
       destruct Hf as [(_ & Hw & Hv) | (f & Hw & Hv)].
       - eexists; split; [|split; [|exact (in_step_files _ _ _ _ _ _ _ H2 Hw Hv)]]; [among_paths | done].
       - eexists; split; [|split; [|exact (in_step_insert _ _ _ _ _ _ _ _ _ H2 Hw Hv)]]; [among_paths | done]. }
  destruct Hf as [(? & _) | (f & Hw & Hv)]; [done|].
  pose proof (in_step_insert _ _ _ _ _ _ _ _ _ H2 Hw Hv) as H3. clear H2 Hw Hv f.
  destruct (filter_stage_agree (join base_dir "tags.csv")
              (join base_dir "tags_filtered.csv") tags_cols
              (tags_body cfg ids.2) counting_init out w3 v3)
    as (r & w4 & v4 & Ew & Ev & Hf).
  { apply (in_step_lookup _ w v _ _ _ H3), Hsrc. compute_done. }
  change (build_tags_filtered cfg base_dir ids.2 w3 = (r, w4)) in Ew.
  change (build_tags_filtered cfg base_dir ids.2 v3 = (r, v4)) in Ev.
  rewrite Ew, Ev. clear Ew Ev. destruct r as [[]|fl].
  2: { cbn [fst snd]. split; [done|].
       destruct Hf as [(_ & Hw & Hv) | (f & Hw & Hv)].
       - eexists; split; [|split; [|exact (in_step_files _ _ _ _ _ _ _ H3 Hw Hv)]]; [among_paths | done].
       - eexists; split; [|split; [|exact (in_step_insert _ _ _ _ _ _ _ _ _ H3 Hw Hv)]]; [among_paths | done]. }
  destruct Hf as [(? & _) | (f & Hw & Hv)]; [done|].
  pose proof (in_step_insert _ _ _ _ _ _ _ _ _ H3 Hw Hv) as H4. clear H3 Hw Hv f.
  destruct (filter_stage_agree (join base_dir "movies.csv")
              (join base_dir "movies_filtered.csv") movies_cols
              (movies_body cfg ids.2) writer_init id w4 v4)
    as (r & w5 & v5 & Ew & Ev & Hf).
  { apply (in_step_lookup _ w v _ _ _ H4), Hsrc. compute_done. }
  change (build_movies_filtered cfg base_dir ids.2 w4 = (r, w5)) in Ew.
  change (build_movies_filtered cfg base_dir ids.2 v4 = (r, v5)) in Ev.
  rewrite Ew, Ev. clear Ew Ev. destruct r as [[]|fl].
  2: { cbn [fst snd]. split; [done|].
       destruct Hf as [(_ & Hw & Hv) | (f & Hw & Hv)].
       - eexists; split; [|split; [|exact (in_step_files _ _ _ _ _ _ _ H4 Hw Hv)]]; [among_paths | done].
       - eexists; split; [|split; [|exact (in_step_insert _ _ _ _ _ _ _ _ _ H4 Hw Hv)]]; [among_paths | done]. }
  destruct Hf as [(? & _) | (f & Hw & Hv)]; [done|].
  pose proof (in_step_insert _ _ _ _ _ _ _ _ _ H4 Hw Hv) as H5. clear H4 Hw Hv f.
  cbn [fst snd]. split; [done|].
  eexists; split; [|split; [intros _ | by apply (in_step_files _ _ _ _ _ _ _ H5)]];
    among_paths.
Qed.

(** X19. What a run does is a function of its four source tables.  Two
    runs from worlds that hold the same four sources end the same way,
    and when they complete they leave the same four outputs, whatever
    else the two worlds held before, earlier outputs included. *)
Theorem run_depends_only_on_sources
    (cfg : config) (base_dir : string) (w v : world) :
  same_sources base_dir w v →
  (main cfg base_dir w).1 = (main cfg base_dir v).1 ∧
  ((main cfg base_dir w).1 = Ok tt →
   ∀ q : path, q ∈ output_paths base_dir →
     files (main cfg base_dir w).2 !! q = files (main cfg base_dir v).2 !! q).
Proof.
  intros Hsrc.
  destruct (main_agree cfg base_dir w v Hsrc) as (Hres & ps & _ & Hall & Hin & _).
  split; [done|]. intros Hok q Hq. by apply Hin, Hall.
Qed.

Lemma run_depends_only_on_sources_witness :
  (main demo_config "data" demo_world).1
  = (main demo_config "data"
       (with_file ("data", "links_filtered.csv") wide_links demo_world)).1 ∧
  files (main demo_config "data" demo_world).2 !! join "data" "links_filtered.csv"
  = files (main demo_config "data"
             (with_file ("data", "links_filtered.csv") wide_links demo_world)).2
      !! join "data" "links_filtered.csv".
Proof.
  destruct (run_depends_only_on_sources demo_config "data" demo_world
              (with_file ("data", "links_filtered.csv") wide_links demo_world))
    as [Hres Hout].
  - intros name Hname. cbn [with_file files].
    rewrite lookup_insert_ne; [done|].
    repeat (apply elem_of_cons in Hname as [-> | Hname]);
      try (by apply elem_of_nil in Hname); by intros [=].
  - split; [exact Hres|]. apply Hout; [reflexivity|].
    unfold output_paths. apply list_elem_of_further, list_elem_of_here.
Defined.

(** X20. Running the script again changes no file: a second run, on
    the world the first one left, ends as the first did and leaves every
    file as the first run left it. *)
Theorem second_run_changes_no_file (cfg : config) (base_dir : string) (w : world) :
  (main cfg base_dir (main cfg base_dir w).2).1 = (main cfg base_dir w).1 ∧
  files (main cfg base_dir (main cfg base_dir w).2).2
  = files (main cfg base_dir w).2.
Proof.
  assert (same_sources base_dir w (main cfg base_dir w).2) as Hsrc.
  { intros name Hname. symmetry.
    by apply (sources_kept base_dir w), Hname; apply main_same_outside. }
  destruct (main_agree cfg base_dir w _ Hsrc) as (Hres & ps & Hsub & _ & Hin & Hout).
  split; [done|]. apply map_eq. intros q.
  destruct (decide (q ∈ ps)) as [Hq | Hq].
  - symmetry. by apply Hin.
  - by destruct (Hout q Hq) as [_ ->].
Qed.

(** ** References between the outputs *)

(** X21. After a run that completed, the three filtered tables refer
    to rated movies only: every row of the filtered links, tags and
    metadata carries a [movieId] that some row of the filtered ratings
    carries too. *)
Theorem filtered_tables_reference_rated_movies
    (cfg : config) (base_dir : string) (w w' : world) :
  main cfg base_dir w = (Ok tt, w') →
  ∀ name : string,
    name ∈ ["links_filtered.csv"; "tags_filtered.csv"; "movies_filtered.csv"] →
    Forall (λ row, ∃ m rated,
                     int_at "movieId" row = Some m
                     ∧ rated ∈ rows_of w' (join base_dir "filtered_ratings.csv")
                     ∧ int_at "movieId" rated = Some m)
      (rows_of w' (join base_dir name)).
Proof.
  intros Hrun name Hname.
  destruct (main_outputs_within cfg base_dir w w' Hrun) as (Hl & Ht & Hm).
  assert (movie_ids_within
            (cap_movie_ids cfg
               (ids_at "movieId" (rows_of w' (join base_dir "filtered_ratings.csv"))))
            (rows_of w' (join base_dir name))) as Hin.
  { repeat (apply elem_of_cons in Hname as [-> | Hname]); try done.
    by apply elem_of_nil in Hname. }
  apply (Forall_impl _ _ _ Hin). intros row (m & Hrow & Hallowed).
  apply cap_movie_ids_subseteq, elem_of_ids_at in Hallowed as (rated & Hr & Hrm).
  by exists m, rated.
Qed.

Lemma filtered_tables_reference_rated_movies_witness :
  Forall (λ row, ∃ m rated,
                   int_at "movieId" row = Some m
                   ∧ rated ∈ rows_of (main demo_config "data" demo_world).2
                               (join "data" "filtered_ratings.csv")
                   ∧ int_at "movieId" rated = Some m)
    (rows_of (main demo_config "data" demo_world).2
       (join "data" "movies_filtered.csv")).
Proof.
  apply (filtered_tables_reference_rated_movies demo_config "data" demo_world
           (main demo_config "data" demo_world).2);
    [reflexivity | compute_done].
Defined.
